(** * prompt-ab-test: deterministic variant assignment and overlay composition

    A shallow embedding of [extensions/prompt-ab-test/index.ts], followed by
    the properties of its hasher, weighted selector, assignment cache,
    experiment registry, overlay composer and assignment reporter.

    - A JavaScript string is the sequence of its UTF-16 code units
      ([jsstring]).
    - A JavaScript number is an IEEE 754 binary64 value.  Weights are
      primitive [float]s and go through the operations the engine performs
      ([Math.max], [+], [/], [*], [<], [<=]), so every closed computation
      below is the computation of the source.  Numbers that are integers by
      construction and only go through exact integer operations (the hash
      accumulator, the seed and its remainder) are kept in [Z]; the seed of
      [selectVariant] ranges over the integers.
    - An optional field is an [option]; [None] stands for an absent
      ([undefined] or [null]) value.
    - The plugin's mutable state (the assignment cache, the logger output
      and the registered hooks) is threaded explicitly through a small
      state-and-exception monad. *)

From Stdlib Require Import ZArith Lia Bool List String Ascii DecimalString.
From Stdlib Require Import Floats Uint63.
From stdpp Require Import base option list gmap.

Local Open Scope Z_scope.

(* ===================================================================== *)
(** * JavaScript strings *)
(* ===================================================================== *)

(** A string is the list of its UTF-16 code units, each in [0, 65536). *)
Abbreviation jsstring := (list Z).

(** The code units of an ASCII literal. *)
Definition utf16 (s : string) : jsstring :=
  List.map (fun a => Z.of_N (N_of_ascii a)) (list_ascii_of_string s).

(** [parts.join(sep)] *)
Fixpoint join (sep : jsstring) (parts : list jsstring) : jsstring :=
  match parts with
  | [] => []
  | [p] => p
  | p :: rest => p ++ sep ++ join sep rest
  end.

(** ECMAScript [WhiteSpace] and [LineTerminator] code points, the ones
    [String.prototype.trim] strips. *)
Definition is_js_whitespace (c : Z) : bool :=
  (c =? 9) || (c =? 10) || (c =? 11) || (c =? 12) || (c =? 13) || (c =? 32)
  || (c =? 160) || (c =? 5760) || ((8192 <=? c) && (c <=? 8202))
  || (c =? 8232) || (c =? 8233) || (c =? 8239) || (c =? 8287)
  || (c =? 12288) || (c =? 65279).

Fixpoint trimStart (s : jsstring) : jsstring :=
  match s with
  | c :: s' => if is_js_whitespace c then trimStart s' else s
  | [] => []
  end.

Definition trimEnd (s : jsstring) : jsstring := rev (trimStart (rev s)).

(** [s.trim()] *)
Definition trim (s : jsstring) : jsstring := trimEnd (trimStart s).

(** JavaScript truthiness of a string: non-empty. *)
Definition truthy (s : jsstring) : bool :=
  match s with [] => false | _ => true end.

(** A list is non-empty ([arr.length > 0]). *)
Definition truthy_list {A} (l : list A) : bool :=
  match l with [] => false | _ => true end.

(** [s.includes(sub)] on code units. *)
Fixpoint starts_with (sub s : jsstring) : bool :=
  match sub, s with
  | [], _ => true
  | a :: sub', b :: s' => (a =? b) && starts_with sub' s'
  | _ :: _, [] => false
  end.

Fixpoint includes (sub s : jsstring) : bool :=
  starts_with sub s || match s with [] => false | _ :: s' => includes sub s' end.

(* ===================================================================== *)
(** * Hasher: [hashString] *)
(* ===================================================================== *)

Module Int32.

(** ECMAScript [ToInt32] and [ToUint32] on an integer-valued number. *)
Definition ToUint32 (x : Z) : Z := x mod 2 ^ 32.

Definition ToInt32 (x : Z) : Z :=
  let m := x mod 2 ^ 32 in if m <? 2 ^ 31 then m else m - 2 ^ 32.

(** [a ^ b]: both operands go through [ToInt32], the result is the
    bitwise exclusive or of the two 32-bit patterns, as a signed value. *)
Definition xor (a b : Z) : Z := Z.lxor (ToInt32 a) (ToInt32 b).

(** [x >>> 0] *)
Definition ushr0 (x : Z) : Z := ToUint32 x.

End Int32.

(** One iteration of the loop body:
    [hash = ((hash * 33) ^ str.charCodeAt(i)) >>> 0].
    The accumulator stays below [2^32], so [hash * 33 < 2^38] is an exact
    double and the product is the integer product. *)
Definition hash_step (hash c : Z) : Z := Int32.ushr0 (Int32.xor (hash * 33) c).

Definition hashString (str : jsstring) : Z := fold_left hash_step str 5381.

(** The recurrence as the specification words it: the accumulator times 33,
    exclusive-or the code unit, truncated to unsigned 32 bits. *)
Definition djb2_xor_step (acc c : Z) : Z := Z.lxor (acc * 33) c mod 2 ^ 32.

Fixpoint djb2_xor (acc : Z) (s : jsstring) : Z :=
  match s with
  | [] => acc
  | c :: s' => djb2_xor (djb2_xor_step acc c) s'
  end.


(* ===================================================================== *)
(** * JavaScript numbers *)
(* ===================================================================== *)

Module Number.

Local Open Scope float_scope.

(** The double of an integer; exact whenever [|z| < 2^53]. *)
Definition of_int (z : Z) : float :=
  match z with
  | Z0 => 0
  | Zpos _ => PrimFloat.of_uint63 (Uint63.of_Z z)
  | Zneg p => - PrimFloat.of_uint63 (Uint63.of_Z (Zpos p))
  end.

(** [n % d] for an integer-valued [n] and a non-zero integer [d]: the
    truncated remainder, which takes the sign of the dividend (so a
    negative multiple of [d] gives [-0]).  The remainder of two doubles is
    exact, and here [|n % d| < |d|] is far below [2^53]. *)
Definition rem (n d : Z) : float :=
  if (n <? 0)%Z then - of_int (- Z.rem n d) else of_int (Z.rem n d).

Definition is_pos_zero (x : float) : bool := PrimFloat.is_zero x && negb (PrimFloat.get_sign x).
Definition is_neg_zero (x : float) : bool := PrimFloat.is_zero x && PrimFloat.get_sign x.

(** [Math.max(x, y)]: [NaN] if either is [NaN], [+0] is larger than [-0]. *)
Definition max (x y : float) : float :=
  if PrimFloat.is_nan x || PrimFloat.is_nan y then nan
  else if is_neg_zero x && is_pos_zero y then y
  else if x <? y then y else x.

End Number.

(* ===================================================================== *)
(** * Config types *)
(* ===================================================================== *)

(** [PromptVariant]; an optional field that is absent is [None]. *)
Record PromptVariant := {
  v_id : jsstring;
  v_weight : option float;
  v_prependContext : option jsstring;
  v_systemPrompt : option jsstring;
}.

(** [AbTestExperiment] *)
Record AbTestExperiment := {
  e_id : jsstring;
  e_description : option jsstring;
  e_enabled : option bool;
  e_variants : list PromptVariant;
  e_agentIds : option (list jsstring);
}.

(** The outcome of a call that may [throw new Error(msg)]. *)
Inductive result (A : Type) : Type :=
  | Ok (a : A)
  | Throw (msg : jsstring).
Arguments Ok {A} a.
Arguments Throw {A} msg.

(* ===================================================================== *)
(** * WeightedSelector: [selectVariant] *)
(* ===================================================================== *)

Section Select.

Local Open Scope float_scope.

(** [Math.max(0, v.weight ?? 1)] *)
Definition effective_weight (v : PromptVariant) : float :=
  Number.max 0 (default 1 (v_weight v)).

(** [weights.reduce((a, b) => a + b, 0)] *)
Definition sum_weights (weights : list float) : float :=
  fold_left PrimFloat.add weights 0.

(** [((seed % 1_000_000) / 1_000_000) * totalWeight] *)
Definition position (seed : Z) (totalWeight : float) : float :=
  (Number.rem seed 1000000 / 1000000) * totalWeight.

(** The [for] loop over [i], on the entries from [i] on: [cumulative] is
    the running sum before [weights[i]] is added.  [None] when the loop
    runs off the end of the array. *)
Fixpoint select_loop (position cumulative : float)
    (variants : list PromptVariant) (weights : list float)
    : option PromptVariant :=
  match variants, weights with
  | v :: variants', w :: weights' =>
      let cumulative := cumulative + w in
      if position <? cumulative then Some v
      else select_loop position cumulative variants' weights'
  | _, _ => None
  end.

Definition selectVariant (variants : list PromptVariant) (seed : Z)
    : result PromptVariant :=
  match variants with
  | [] => Throw (utf16 "selectVariant: variants array must not be empty")
  | first :: _ =>
      let weights := List.map effective_weight variants in
      let totalWeight := sum_weights weights in
      if totalWeight <=? 0 then Ok first
      else
        match select_loop (position seed totalWeight) 0 variants weights with
        | Some v => Ok v
        | None => Ok (List.last variants first)
        end
  end.

End Select.

(** The selection as the specification words it: the cumulative weight
    after each variant, and the first variant whose cumulative weight
    exceeds the position. *)
Fixpoint cumulative_weights (before : float) (weights : list float) : list float :=
  match weights with
  | [] => []
  | w :: weights' => (before + w)%float :: cumulative_weights (before + w)%float weights'
  end.

Definition select_as_stated (variants : list PromptVariant) (seed : Z)
    : option PromptVariant :=
  match variants with
  | [] => None
  | first :: _ =>
      let weights :=
        List.map (fun v => Number.max 0 (default 1%float (v_weight v))) variants in
      let totalWeight := fold_left PrimFloat.add weights 0%float in
      if PrimFloat.leb totalWeight 0 then Some first
      else
        let position :=
          (Number.rem seed 1000000 / 1000000 * totalWeight)%float in
        match List.find (fun vc => PrimFloat.ltb position (snd vc))
                        (combine variants (cumulative_weights 0 weights)) with
        | Some (v, _) => Some v
        | None => Some (List.last variants first)
        end
  end.

(** The composite key [`${sessionKey}:${experimentId}`]: the hash input and
    the key of the assignment cache. *)
Definition assignmentKey (sessionKey experimentId : jsstring) : jsstring :=
  sessionKey ++ utf16 ":" ++ experimentId.

Definition assignVariant (sessionKey experimentId : jsstring)
    (variants : list PromptVariant) : result PromptVariant :=
  let seed := hashString (assignmentKey sessionKey experimentId) in
  selectVariant variants seed.

(* ===================================================================== *)
(** * Plugin state and effects *)
(* ===================================================================== *)

Inductive LogLevel := LDebug | LInfo | LWarn.

(** The hooks [register] installs.  The [gateway_start] handler only logs
    a summary of the experiments and is not modelled further. *)
Inductive HookName := before_prompt_build_hook | agent_end_hook | gateway_start_hook.

(** What the plugin can change: the [assignmentCache] map of [register]'s
    closure, the lines handed to [api.logger] (oldest first) and the hooks
    registered with [api.on]; and, of the host, whether its logger has the
    optional [debug] method, which the plugin reads and never changes. *)
Record PluginState := {
  assignmentCache : gmap jsstring PromptVariant;
  logger : list (LogLevel * jsstring);
  hooks : list HookName;
  logger_has_debug : bool;
}.

(** Nothing cached, logged or registered yet, under a logger with [debug]. *)
Definition initial_state : PluginState :=
  {| assignmentCache := ∅; logger := []; hooks := []; logger_has_debug := true |}.

(** A computation that reads and writes the plugin state and may throw;
    state changes made before a throw stay, as in JavaScript. *)
Definition M (A : Type) : Type := PluginState -> result A * PluginState.

Definition ret {A} (a : A) : M A := fun st => (Ok a, st).

Definition bind {A B} (m : M A) (k : A -> M B) : M B :=
  fun st =>
    match m st with
    | (Ok a, st') => k a st'
    | (Throw msg, st') => (Throw msg, st')
    end.

Declare Scope plugin_scope.
Delimit Scope plugin_scope with plugin.
Bind Scope plugin_scope with M.
Notation "'let*' x := m 'in' k" := (bind m (fun x => k))
  (at level 10, x name, m at level 100, k at level 200) : plugin_scope.
Notation "m ;;; k" := (bind m (fun _ => k))
  (at level 100, k at level 200, right associativity) : plugin_scope.
Local Open Scope plugin_scope.

(** A pure call that may throw, inside [M]. *)
Definition lift {A} (r : result A) : M A := fun st => (r, st).

(** [assignmentCache.get(key)] *)
Definition cache_get (key : jsstring) : M (option PromptVariant) :=
  fun st => (Ok (assignmentCache st !! key), st).

(** [assignmentCache.set(key, variant)] *)
Definition cache_set (key : jsstring) (variant : PromptVariant) : M unit :=
  fun st =>
    (Ok tt, {| assignmentCache := <[key := variant]> (assignmentCache st);
               logger := logger st; hooks := hooks st;
               logger_has_debug := logger_has_debug st |}).

(** The state after the logger has received [lines] more. *)
Definition add_lines (st : PluginState) (lines : list (LogLevel * jsstring))
    : PluginState :=
  {| assignmentCache := assignmentCache st;
     logger := logger st ++ lines; hooks := hooks st;
     logger_has_debug := logger_has_debug st |}.

(** [api.logger.<level>(msg)] *)
Definition log (level : LogLevel) (msg : jsstring) : M unit :=
  fun st => (Ok tt, add_lines st [(level, msg)]).

(** [api.logger.debug?.(msg)]: the call is skipped when the logger has no
    [debug]. *)
Definition log_debug (msg : jsstring) : M unit :=
  fun st => if logger_has_debug st then log LDebug msg st else (Ok tt, st).

(** [api.on(name, handler)] *)
Definition on (name : HookName) : M unit :=
  fun st =>
    (Ok tt, {| assignmentCache := assignmentCache st;
               logger := logger st; hooks := hooks st ++ [name];
               logger_has_debug := logger_has_debug st |}).

(* ===================================================================== *)
(** * AssignmentStore: [getVariantForSession] *)
(* ===================================================================== *)

Definition getVariantForSession (sessionKey : jsstring)
    (experiment : AbTestExperiment) : M PromptVariant :=
  let cacheKey := assignmentKey sessionKey (e_id experiment) in
  let* cached := cache_get cacheKey in
  match cached with
  | Some v => ret v
  | None =>
      let* variant :=
        lift (assignVariant sessionKey (e_id experiment) (e_variants experiment)) in
      cache_set cacheKey variant ;;;
      log_debug (utf16 "prompt-ab-test: assigned session=" ++ sessionKey
                 ++ utf16 " experiment=" ++ e_id experiment
                 ++ utf16 " " ++ [8594] ++ utf16 " variant=" ++ v_id variant) ;;;
      ret variant
  end.

(* ===================================================================== *)
(** * OverlayComposer: the [before_prompt_build] handler *)
(* ===================================================================== *)

(** The hook context [ctx]. *)
Record HookContext := {
  sessionKey : option jsstring;
  sessionId : option jsstring;
  agentId : option jsstring;
}.

(** The handler's return value when it is not [undefined]. *)
Record Overlay := {
  o_systemPrompt : option jsstring;
  o_prependContext : option jsstring;
}.

(** The condition of the [continue]:
    [Array.isArray(experiment.agentIds) && experiment.agentIds.length > 0
     && (!agentId || !experiment.agentIds.includes(agentId))]. *)
Definition filtered_out (agentId : option jsstring) (experiment : AbTestExperiment)
    : bool :=
  match e_agentIds experiment with
  | Some ((_ :: _) as ids) =>
      match agentId with
      | None => true
      | Some a => negb (truthy a) || negb (bool_decide (a ∈ ids))
      end
  | _ => false
  end.

(** The body of the [for ... of] loop on one non-skipped experiment's
    variant: the new values of [resultSystemPrompt] and [prependParts]. *)
Definition merge_variant (variant : PromptVariant)
    (acc : option jsstring * list jsstring) : option jsstring * list jsstring :=
  let '(resultSystemPrompt, prependParts) := acc in
  let resultSystemPrompt :=
    match v_systemPrompt variant with
    | Some sp => if truthy sp then Some sp else resultSystemPrompt
    | None => resultSystemPrompt
    end in
  let prependParts :=
    match v_prependContext variant with
    | Some pc => if truthy (trim pc) then prependParts ++ [trim pc] else prependParts
    | None => prependParts
    end in
  (resultSystemPrompt, prependParts).

Fixpoint prompt_build_loop (sessionKey : jsstring) (agentId : option jsstring)
    (experiments : list AbTestExperiment)
    (acc : option jsstring * list jsstring)
    : M (option jsstring * list jsstring) :=
  match experiments with
  | [] => ret acc
  | experiment :: rest =>
      if filtered_out agentId experiment
      then prompt_build_loop sessionKey agentId rest acc
      else
        let* variant := getVariantForSession sessionKey experiment in
        prompt_build_loop sessionKey agentId rest (merge_variant variant acc)
  end.

Definition before_prompt_build (activeExperiments : list AbTestExperiment)
    (ctx : HookContext) : M (option Overlay) :=
  let sessionKey :=
    default (default (utf16 "anonymous") (sessionId ctx)) (sessionKey ctx) in
  let* acc := prompt_build_loop sessionKey (agentId ctx) activeExperiments (None, []) in
  let '(resultSystemPrompt, prependParts) := acc in
  match resultSystemPrompt, prependParts with
  | None, [] => ret None
  | _, _ =>
      ret (Some {| o_systemPrompt := resultSystemPrompt;
                   o_prependContext :=
                     match prependParts with
                     | [] => None
                     | _ => Some (join [10; 10] prependParts)
                     end |})
  end.

(* ===================================================================== *)
(** * AssignmentReporter: the [agent_end] handler *)
(* ===================================================================== *)

(** The [map] callback over the active experiments, then the [filter] that
    drops the [null]s. *)
Fixpoint collect_assignments (sessionKey : jsstring)
    (experiments : list AbTestExperiment) : M (list jsstring) :=
  match experiments with
  | [] => ret []
  | exp :: rest =>
      let* variant := cache_get (assignmentKey sessionKey (e_id exp)) in
      let* entries := collect_assignments sessionKey rest in
      match variant with
      | Some v => ret ((e_id exp ++ utf16 "=" ++ v_id v) :: entries)
      | None => ret entries
      end
  end.

Definition agent_end (activeExperiments : list AbTestExperiment)
    (ctx : HookContext) : M unit :=
  match (match sessionKey ctx with Some k => Some k | None => sessionId ctx end) with
  | None => ret tt
  | Some sessionKey =>
      if negb (truthy sessionKey) then ret tt
      else
        let* assignments := collect_assignments sessionKey activeExperiments in
        match assignments with
        | [] => ret tt
        | _ =>
            log LInfo (utf16 "prompt-ab-test: assignments session=" ++ sessionKey
                       ++ utf16 " [" ++ join (utf16 ", ") assignments ++ utf16 "]")
        end
  end.

(* ===================================================================== *)
(** * ExperimentRegistry: [register] *)
(* ===================================================================== *)

(** An entry of [cfg.experiments] before validation.  [raw_id] is [None]
    when [typeof exp.id !== "string"], [raw_variants] is [None] when
    [!Array.isArray(exp.variants)], and [raw_enabled] is [Some false] only
    for the literal [false]. *)
Record RawExperiment := {
  raw_id : option jsstring;
  raw_description : option jsstring;
  raw_enabled : option bool;
  raw_variants : option (list PromptVariant);
  raw_agentIds : option (list jsstring);
}.

(** [api.pluginConfig]: [None] when nullish; [experiments] likewise; a falsy
    entry of the array ([null], [undefined]) is [None]. *)
Record PromptAbTestConfig := {
  experiments : option (list (option RawExperiment));
}.

(** The callback of the first [filter]: warns and drops, or keeps the entry
    (now known to have the shape of an [AbTestExperiment]). *)
Definition validate (exp : option RawExperiment) : M (option AbTestExperiment) :=
  let missing_id :=
    log LWarn (utf16 "prompt-ab-test: skipping experiment with missing id") ;;;
    ret None in
  match exp with
  | None => missing_id
  | Some raw =>
      match raw_id raw with
      | None => missing_id
      | Some id =>
          if negb (truthy (trim id)) then missing_id
          else
            match raw_variants raw with
            | Some ((_ :: _) as variants) =>
                ret (Some {| e_id := id;
                             e_description := raw_description raw;
                             e_enabled := raw_enabled raw;
                             e_variants := variants;
                             e_agentIds := raw_agentIds raw |})
            | _ =>
                log LWarn (utf16 "prompt-ab-test: skipping experiment " ++ [34] ++ id
                           ++ [34] ++ utf16 " " ++ [8212]
                           ++ utf16 " must have at least one variant") ;;;
                ret None
            end
      end
  end.

Fixpoint filter_valid (raw : list (option RawExperiment)) : M (list AbTestExperiment) :=
  match raw with
  | [] => ret []
  | exp :: rest =>
      let* kept := validate exp in
      let* experiments := filter_valid rest in
      ret (match kept with Some e => e :: experiments | None => experiments end)
  end.

(** [exp.enabled !== false] *)
Definition is_enabled (exp : AbTestExperiment) : bool :=
  match e_enabled exp with Some false => false | _ => true end.

(** [String(n)] for an array length. *)
Definition length_to_string (n : nat) : jsstring :=
  utf16 (NilEmpty.string_of_uint (Nat.to_uint n)).

(** [register(api)].  The result is the value of the local
    [activeExperiments], which the registered handlers close over. *)
Definition register (pluginConfig : option PromptAbTestConfig)
    : M (list AbTestExperiment) :=
  let cfg := default {| experiments := None |} pluginConfig in
  let* experiments := filter_valid (default [] (experiments cfg)) in
  let activeExperiments := List.filter is_enabled experiments in
  match activeExperiments with
  | [] =>
      log LInfo (utf16 "prompt-ab-test: no active experiments configured, plugin is idle") ;;;
      ret activeExperiments
  | _ =>
      log LInfo (utf16 "prompt-ab-test: loaded "
                 ++ length_to_string (length activeExperiments)
                 ++ utf16 " active experiment(s): "
                 ++ join (utf16 ", ") (List.map e_id activeExperiments)) ;;;
      on before_prompt_build_hook ;;;
      on agent_end_hook ;;;
      on gateway_start_hook ;;;
      ret activeExperiments
  end.

(* ===================================================================== *)
(** * The weight-ratio test of [index.test.ts] *)
(* ===================================================================== *)

(** A variant with an id and a weight and no overrides, as the tests
    write them: [{ id, weight }]. *)
Definition weighted (id : string) (weight : float) : PromptVariant :=
  {| v_id := utf16 id; v_weight := Some weight;
     v_prependContext := None; v_systemPrompt := None |}.

(** The pool of "roughly honours weight ratios over many seeds". *)
Definition heavy_light_pool : list PromptVariant :=
  [weighted "heavy" 9; weighted "light" 1].

(** The seeds [from, from + 1, ..., from + count - 1]. *)
Definition seeds_from (from : Z) (count : nat) : list Z :=
  List.map (fun i => from + Z.of_nat i) (seq 0 count).

(** [counts[id]] after the test's loop over [seeds]. *)
Definition count_selected (id : jsstring) (pool : list PromptVariant)
    (seeds : list Z) : nat :=
  length (List.filter
            (fun seed =>
               match selectVariant pool seed with
               | Ok v => bool_decide (v_id v = id)
               | Throw _ => false
               end) seeds).

(** [counts.heavy / 10_000] *)
Definition heavyRatio : float :=
  (Number.of_int (Z.of_nat (count_selected (utf16 "heavy") heavy_light_pool
                              (seeds_from 0 (Z.to_nat 10000)))) / 10000)%float.

(* ===================================================================== *)
(** * Reading a double through its IEEE 754 specification *)
(* ===================================================================== *)

(** Strictly negative: a negative finite non-zero value or [-Infinity]. *)
Definition sf_negative (x : spec_float) : bool :=
  match x with
  | S754_finite true _ _ | S754_infinity true => true
  | _ => false
  end.

(** Strictly positive: a positive finite non-zero value or [+Infinity]. *)
Definition sf_positive (x : spec_float) : bool :=
  match x with
  | S754_finite false _ _ | S754_infinity false => true
  | _ => false
  end.

(** A zero of either sign, or strictly positive. *)
Definition sf_zero_or_positive (x : spec_float) : bool :=
  match x with
  | S754_zero _ => true
  | _ => sf_positive x
  end.

(** [check r] for every [r] of [from, from + 1, ..., from + count - 1]. *)
Fixpoint all_from (check : Z -> bool) (from : Z) (count : nat) : bool :=
  match count with
  | O => true
  | S count' => if check from then all_from check (from + 1) count' else false
  end.

(* ===================================================================== *)
(** * Reachable plugin states *)
(* ===================================================================== *)

(** The states the plugin can be in once [register] has installed its
    handlers over [activeExperiments]: the cache starts empty and then any
    number of [before_prompt_build] and [agent_end] calls run, with any
    contexts. *)
Inductive reachable (activeExperiments : list AbTestExperiment) : PluginState -> Prop :=
  | reachable_registered (lines : list (LogLevel * jsstring))
      (registered : list HookName) (debug : bool) :
      reachable activeExperiments
        {| assignmentCache := ∅; logger := lines; hooks := registered;
           logger_has_debug := debug |}
  | reachable_prompt_build (st : PluginState) (ctx : HookContext) :
      reachable activeExperiments st ->
      reachable activeExperiments (snd (before_prompt_build activeExperiments ctx st))
  | reachable_agent_end (st : PluginState) (ctx : HookContext) :
      reachable activeExperiments st ->
      reachable activeExperiments (snd (agent_end activeExperiments ctx st)).

(** Every cache entry is the assignment of some session to some active
    experiment, stored under that pair's composite key. *)
Definition cache_sound (activeExperiments : list AbTestExperiment)
    (cache : gmap jsstring PromptVariant) : Prop :=
  forall (key : jsstring) (v : PromptVariant),
    cache !! key = Some v ->
    exists (k : jsstring) (e : AbTestExperiment),
      e ∈ activeExperiments
      /\ key = assignmentKey k (e_id e)
      /\ assignVariant k (e_id e) (e_variants e) = Ok v.

(* ===================================================================== *)
(** * The overlay as the specification words it *)
(* ===================================================================== *)

(** The variants [getVariantForSession] hands out, in iteration order, for
    the experiments the agent filter lets through. *)
Fixpoint resolve_assignments (sessionKey : jsstring) (agentId : option jsstring)
    (experiments : list AbTestExperiment) : M (list PromptVariant) :=
  match experiments with
  | [] => ret []
  | experiment :: rest =>
      if filtered_out agentId experiment
      then resolve_assignments sessionKey agentId rest
      else
        let* variant := getVariantForSession sessionKey experiment in
        let* variants := resolve_assignments sessionKey agentId rest in
        ret (variant :: variants)
  end.

(** Which experiments qualify for a request, in the specification's
    words: an experiment with a non-empty [agentIds] allow-list is skipped
    unless the request carries an [agentId] that is a member of that list;
    experiments without an allow-list apply to every request. *)
Definition qualifies (agentId : option jsstring) (experiment : AbTestExperiment)
    : bool :=
  match e_agentIds experiment with
  | None | Some [] => true
  | Some allowed =>
      match agentId with
      | Some a => bool_decide (a ∈ allowed)
      | None => false
      end
  end.

(** The session's assignments for the given experiments, each obtained from
    [getVariantForSession], in order. *)
Fixpoint assign_each (sessionKey : jsstring) (experiments : list AbTestExperiment)
    : M (list PromptVariant) :=
  match experiments with
  | [] => ret []
  | experiment :: rest =>
      let* variant := getVariantForSession sessionKey experiment in
      let* variants := assign_each sessionKey rest in
      ret (variant :: variants)
  end.

(** The non-empty [systemPrompt] values of the assigned variants, in
    order; the last one wins. *)
Definition nonempty_systemPrompts (assigned : list PromptVariant) : list jsstring :=
  List.filter truthy (omap v_systemPrompt assigned).

(** The trimmed [prependContext] values of the assigned variants that are
    non-empty after trimming, in order. *)
Definition trimmed_contexts (assigned : list PromptVariant) : list jsstring :=
  List.filter truthy (List.map trim (omap v_prependContext assigned)).

(** The session key the prompt-build handler uses. *)
Definition prompt_session_key (ctx : HookContext) : jsstring :=
  match sessionKey ctx, sessionId ctx with
  | Some k, _ => k
  | None, Some i => i
  | None, None => utf16 "anonymous"
  end.

(* ===================================================================== *)
(** * The active list as the specification words it *)
(* ===================================================================== *)

(** [(api.pluginConfig ?? {}).experiments ?? []] *)
Definition raw_entries (pluginConfig : option PromptAbTestConfig)
    : list (option RawExperiment) :=
  match pluginConfig with
  | Some cfg => default [] (experiments cfg)
  | None => []
  end.

(** A raw entry read as an experiment, once it is known to have a string
    id and an array of variants. *)
Definition as_experiment (exp : option RawExperiment) : option AbTestExperiment :=
  match exp with
  | Some raw =>
      match raw_id raw, raw_variants raw with
      | Some id, Some variants =>
          Some {| e_id := id; e_description := raw_description raw;
                  e_enabled := raw_enabled raw; e_variants := variants;
                  e_agentIds := raw_agentIds raw |}
      | _, _ => None
      end
  | None => None
  end.

(** The entry has a string id satisfying [id_ok], a non-empty variants
    array, and an [enabled] flag that is not explicitly [false]. *)
Definition kept_when (id_ok : jsstring -> bool) (exp : option RawExperiment)
    : option AbTestExperiment :=
  match as_experiment exp with
  | Some e =>
      if id_ok (e_id e) && truthy_list (e_variants e)
         && negb (bool_decide (e_enabled e = Some false))
      then Some e else None
  | None => None
  end.

(** As stated: the id is a non-empty string. *)
Definition kept_as_stated : option RawExperiment -> option AbTestExperiment :=
  kept_when truthy.

(** As the code has it: the id is non-empty after trimming. *)
Definition kept_non_blank : option RawExperiment -> option AbTestExperiment :=
  kept_when (fun id => truthy (trim id)).

(* ===================================================================== *)
(** * Sample configurations *)
(* ===================================================================== *)

(** An experiment with an id and variants and nothing else set. *)
Definition experiment (id : string) (variants : list PromptVariant)
    : AbTestExperiment :=
  {| e_id := utf16 id; e_description := None; e_enabled := None;
     e_variants := variants; e_agentIds := None |}.

(** The same experiment as an entry of [cfg.experiments]. *)
Definition raw_experiment (id : string) (variants : list PromptVariant)
    : option RawExperiment :=
  Some {| raw_id := Some (utf16 id); raw_description := None;
          raw_enabled := None; raw_variants := Some variants;
          raw_agentIds := None |}.

(** A context that carries only a session key. *)
Definition session (key : string) : HookContext :=
  {| sessionKey := Some (utf16 key); sessionId := None; agentId := None |}.

(* ===================================================================== *)
(** * Startup summary: the [gateway_start] handler *)
(* ===================================================================== *)

Section GatewayStart.

(** [String(n)] for a number inside a template literal (ECMAScript
    [Number::toString], the shortest decimal that reads back as [n]); the
    handler only splices its result into the line. *)
Variable numberToString : float -> jsstring.

(** [`${v.id}(w=${v.weight ?? 1})`] *)
Definition variant_summary (v : PromptVariant) : jsstring :=
  v_id v ++ utf16 "(w=" ++ numberToString (default 1%float (v_weight v)) ++ utf16 ")".

(** The line logged for one experiment. *)
Definition experiment_summary (exp : AbTestExperiment) : jsstring :=
  utf16 "prompt-ab-test: experiment " ++ [34] ++ e_id exp ++ [34]
  ++ utf16 " " ++ [8212] ++ utf16 " "
  ++ default (utf16 "no description") (e_description exp)
  ++ utf16 " " ++ [8212] ++ utf16 " variants: ["
  ++ join (utf16 ", ") (List.map variant_summary (e_variants exp)) ++ utf16 "]".

(** The [for ... of] loop of the handler. *)
Fixpoint gateway_start (activeExperiments : list AbTestExperiment) : M unit :=
  match activeExperiments with
  | [] => ret tt
  | exp :: rest => log LInfo (experiment_summary exp) ;;; gateway_start rest
  end.

End GatewayStart.

(* ===================================================================== *)
(** * The session-end report, read off the cache *)
(* ===================================================================== *)

(** The session key [agent_end] reports under: [ctx.sessionKey ??
    ctx.sessionId], and nothing when that is absent or the empty string. *)
Definition report_session_key (ctx : HookContext) : option jsstring :=
  match sessionKey ctx with
  | Some k => if truthy k then Some k else None
  | None =>
      match sessionId ctx with
      | Some i => if truthy i then Some i else None
      | None => None
      end
  end.

(** One [<experimentId>=<variantId>] entry per active experiment that has
    an assignment in the cache for the session, in the experiments' order. *)
Definition report_entries (k : jsstring) (exps : list AbTestExperiment)
    (cache : gmap jsstring PromptVariant) : list jsstring :=
  omap (fun e =>
          match cache !! assignmentKey k (e_id e) with
          | Some v => Some (e_id e ++ utf16 "=" ++ v_id v)
          | None => None
          end) exps.

(** The frame of a computation: it keeps every cache entry, registers no
    hook, and only appends debug lines: one for each entry it adds under a
    logger with [debug], none under a logger without. *)
Definition only_assigns (st st' : PluginState) : Prop :=
  (forall key v, assignmentCache st !! key = Some v ->
                 assignmentCache st' !! key = Some v)
  /\ hooks st' = hooks st
  /\ logger_has_debug st' = logger_has_debug st
  /\ exists lines,
       logger st' = logger st ++ lines
       /\ Forall (fun line => fst line = LDebug) lines
       /\ if logger_has_debug st
          then size (assignmentCache st')
               = (size (assignmentCache st) + length lines)%nat
          else lines = [].

(** The raw entry passes the first filter of [register]: it has a string
    id that is not blank and a non-empty array of variants. *)
Definition well_formed (exp : option RawExperiment) : bool :=
  match as_experiment exp with
  | Some e => truthy (trim (e_id e)) && truthy_list (e_variants e)
  | None => false
  end.

(* ===================================================================== *)
(** * [agents/prompt-loader.ts]: JavaScript string operations it uses *)
(* ===================================================================== *)

(** [s.split("\n")]: the pieces between line feeds; the empty string gives
    one empty piece. *)
Fixpoint split_lines (s : jsstring) : list jsstring :=
  match s with
  | [] => [[]]
  | c :: s' =>
      if c =? 10 then [] :: split_lines s'
      else
        match split_lines s' with
        | line :: lines => (c :: line) :: lines
        | [] => [[c]]
        end
  end.

(** [s.indexOf(sub)]: the first index at which [sub] occurs, [None] for -1. *)
Fixpoint indexOf (sub s : jsstring) : option nat :=
  if starts_with sub s then Some O
  else
    match s with
    | [] => None
    | _ :: s' =>
        match indexOf sub s' with
        | Some i => Some (S i)
        | None => None
        end
    end.

(** [GetSubstitution] for a string pattern, which has no captures: in the
    replacement text [$$] stands for a dollar sign, [$&] for the matched
    text, [$`] for what precedes the match and [$'] for what follows it;
    every other code unit (a [$] before a digit or [<] included) is copied. *)
Fixpoint get_substitution (matched preceding following template : jsstring)
    : jsstring :=
  match template with
  | [] => []
  | c :: rest =>
      match rest with
      | d :: rest' =>
          if c =? 36 then
            if d =? 36 then 36 :: get_substitution matched preceding following rest'
            else if d =? 96 then
              preceding ++ get_substitution matched preceding following rest'
            else if d =? 38 then
              matched ++ get_substitution matched preceding following rest'
            else if d =? 39 then
              following ++ get_substitution matched preceding following rest'
            else c :: get_substitution matched preceding following rest
          else c :: get_substitution matched preceding following rest
      | [] => [c]
      end
  end.

(** The scan of [whole.replaceAll(pattern, template)] for a non-empty
    [pattern], from index [pos] with [s] what is left of [whole]: matches
    are taken left to right and do not overlap ([skip] counts the code
    units of the current match still to pass). *)
Fixpoint replace_scan (pattern template whole : jsstring) (skip pos : nat)
    (s : jsstring) : jsstring :=
  match s with
  | [] => []
  | c :: s' =>
      match skip with
      | S skip' => replace_scan pattern template whole skip' (S pos) s'
      | O =>
          if starts_with pattern s then
            get_substitution pattern (take pos whole)
              (drop (pos + length pattern) whole) template
            ++ replace_scan pattern template whole (length pattern - 1) (S pos) s'
          else c :: replace_scan pattern template whole O (S pos) s'
      end
  end.

(** [content.replaceAll(pattern, value)], [pattern] not empty. *)
Definition replaceAll (pattern value content : jsstring) : jsstring :=
  replace_scan pattern value content O O content.

(** The placeholder [`{{${key}}}`]. *)
Definition placeholder (key : jsstring) : jsstring :=
  utf16 "{{" ++ key ++ utf16 "}}".

(** The [for ... of Object.entries(vars)] loop of [loadPromptWithVars];
    [vars] lists the entries in [Object.entries] order. *)
Definition apply_vars (vars : list (jsstring * jsstring)) (content : jsstring)
    : jsstring :=
  fold_left (fun content kv => replaceAll (placeholder (fst kv)) (snd kv) content)
            vars content.

(** [result[key] = value] on the object literal [{}]: it has
    [Object.prototype], whose [__proto__] setter ignores a string, so that
    key gets no entry. *)
Definition set_property (key value : jsstring) (result : gmap jsstring jsstring)
    : gmap jsstring jsstring :=
  if bool_decide (key = utf16 "__proto__") then result
  else <[key := value]> result.

(** The body of the loop of [loadToolSummaries] on one line. *)
Definition parse_summary_line (result : gmap jsstring jsstring) (line : jsstring)
    : gmap jsstring jsstring :=
  let trimmed := trim line in
  if negb (truthy trimmed) then result
  else
    match indexOf (utf16 ": ") trimmed with
    | None => result
    | Some colonIndex =>
        let key := trim (take colonIndex trimmed) in
        let value := trim (drop (colonIndex + 2) trimmed) in
        if truthy key && truthy value then set_property key value result
        else result
    end.

(** [loadToolSummaries] on the loaded [content]. *)
Definition parse_tool_summaries (content : jsstring) : gmap jsstring jsstring :=
  fold_left parse_summary_line (split_lines content) ∅.

(** What an entry of the tool summaries looks like: a tool name and a
    description, both non-empty, without surrounding white space and
    without a line feed (code unit 10, the only separator [split] is given);
    the name holds no colon followed by a space and is not [__proto__]. *)
Definition summary_entry (key value : jsstring) : Prop :=
  key <> [] /\ value <> []
  /\ trim key = key /\ trim value = value
  /\ includes (utf16 ": ") key = false
  /\ (10 ∉ key) /\ (10 ∉ value)
  /\ key <> utf16 "__proto__".

(** A line of the file as the source documents it: [toolName: description]. *)
Definition summary_line (entry : jsstring * jsstring) : jsstring :=
  fst entry ++ utf16 ": " ++ snd entry.

(** The object that assigning the entries one after the other builds. *)
Definition summaries_of (entries : list (jsstring * jsstring))
    : gmap jsstring jsstring :=
  fold_left (fun result entry => <[fst entry := snd entry]> result) entries ∅.

(** The string does not end with white space. *)
Definition no_trailing_space (s : jsstring) : Prop :=
  forall (before : jsstring) (c : Z), s = before ++ [c] -> is_js_whitespace c = false.

(* ===================================================================== *)
(** * [agents/prompt-loader.ts]: the loader *)
(* ===================================================================== *)

Module PromptLoader.

(** What the loader sees of its host at the time of a call: the package
    root found by [resolveOpenClawPackageRootSync] ([None] for [null]), the
    directory of the module, and the file system. *)
Record Host := {
  packageRoot : option jsstring;
  thisDir : jsstring;
  existsSync : jsstring -> bool;
  readFileSync : jsstring -> result jsstring;
}.

(** The module's variables [cachedPromptsDir] and [promptCache]. *)
Record LoaderState := {
  cachedPromptsDir : option jsstring;
  promptCache : gmap jsstring jsstring;
}.

Definition initial : LoaderState :=
  {| cachedPromptsDir := None; promptCache := ∅ |}.

Section Loader.

(** [path.join] of node, applied to its arguments. *)
Variable path_join : list jsstring -> jsstring.

Definition resolvePromptsDir (host : Host) : result jsstring :=
  let candidate root := path_join [root; utf16 "src"; utf16 "agents"; utf16 "prompts"] in
  let fallback := path_join [thisDir host; utf16 "prompts"] in
  let from_root :=
    match packageRoot host with
    | Some root =>
        if truthy root && existsSync host (candidate root)
        then Some (candidate root) else None
    | None => None
    end in
  match from_root with
  | Some dir => Ok dir
  | None =>
      if existsSync host fallback then Ok fallback
      else
        Throw (utf16 "Could not locate prompt markdown files. Searched:" ++ [10]
               ++ utf16 "  - "
               ++ match packageRoot host with
                  | Some root =>
                      if truthy root then candidate root
                      else utf16 "(no package root)"
                  | None => utf16 "(no package root)"
                  end
               ++ [10] ++ utf16 "  - " ++ fallback)
  end.

(** [getPromptsDir()] *)
Definition getPromptsDir (host : Host) (st : LoaderState)
    : result jsstring * LoaderState :=
  match cachedPromptsDir st with
  | Some dir =>
      if truthy dir then (Ok dir, st)
      else
        match resolvePromptsDir host with
        | Ok d => (Ok d, {| cachedPromptsDir := Some d; promptCache := promptCache st |})
        | Throw msg => (Throw msg, st)
        end
  | None =>
      match resolvePromptsDir host with
      | Ok d => (Ok d, {| cachedPromptsDir := Some d; promptCache := promptCache st |})
      | Throw msg => (Throw msg, st)
      end
  end.

(** [loadPrompt(name)] *)
Definition loadPrompt (name : jsstring) (host : Host) (st : LoaderState)
    : result jsstring * LoaderState :=
  match promptCache st !! name with
  | Some cached => (Ok cached, st)
  | None =>
      match getPromptsDir host st with
      | (Throw msg, st1) => (Throw msg, st1)
      | (Ok dir, st1) =>
          let filePath := path_join [dir; name ++ utf16 ".md"] in
          match readFileSync host filePath with
          | Throw msg => (Throw msg, st1)
          | Ok raw =>
              let content := trimEnd raw in
              (Ok content,
               {| cachedPromptsDir := cachedPromptsDir st1;
                  promptCache := <[name := content]> (promptCache st1) |})
          end
      end
  end.

(** [loadPromptWithVars(name, vars)] *)
Definition loadPromptWithVars (name : jsstring) (vars : list (jsstring * jsstring))
    (host : Host) (st : LoaderState) : result jsstring * LoaderState :=
  match loadPrompt name host st with
  | (Ok content, st1) => (Ok (apply_vars vars content), st1)
  | (Throw msg, st1) => (Throw msg, st1)
  end.

(** [loadToolSummaries()] *)
Definition loadToolSummaries (host : Host) (st : LoaderState)
    : result (gmap jsstring jsstring) * LoaderState :=
  match loadPrompt (utf16 "tool-summaries") host st with
  | (Ok content, st1) => (Ok (parse_tool_summaries content), st1)
  | (Throw msg, st1) => (Throw msg, st1)
  end.

End Loader.

(** [clearPromptCache()] *)
Definition clearPromptCache (st : LoaderState) : LoaderState := initial.

(** A [path.join] for examples: the parts joined by [/]. *)
Definition join_slash (parts : list jsstring) : jsstring := join (utf16 "/") parts.

(** A host for examples: the package root is [/app], and the only file is
    [/app/src/agents/prompts/<name>.md] with the given text. *)
Definition host_with (name content : string) : Host :=
  {| packageRoot := Some (utf16 "/app");
     thisDir := utf16 "/app/dist";
     existsSync := fun p => bool_decide (p = utf16 "/app/src/agents/prompts");
     readFileSync := fun p =>
       if bool_decide (p = utf16 "/app/src/agents/prompts/" ++ utf16 name ++ utf16 ".md")
       then Ok (utf16 content)
       else Throw (utf16 "ENOENT: no such file or directory") |}.

(** A host for examples with no package root and no files. *)
Definition empty_host : Host :=
  {| packageRoot := None; thisDir := utf16 "/app/dist";
     existsSync := fun _ => false;
     readFileSync := fun _ => Throw (utf16 "ENOENT: no such file or directory") |}.

End PromptLoader.

(* ===================================================================== *)
(** * Hasher: properties *)
(* ===================================================================== *)

(** [ToInt32] keeps the low 32 bits. *)
Lemma ToInt32_testbit (x n : Z) : 0 <= n < 32 -> Z.testbit (Int32.ToInt32 x) n = Z.testbit x n.
Proof.
  intros Hn. unfold Int32.ToInt32.
  assert (E : forall y, Z.testbit y n = Z.testbit (y mod 2 ^ 32) n).
  { intros y. rewrite Z.mod_pow2_bits_low by lia. reflexivity. }
  destruct (x mod 2 ^ 32 <? 2 ^ 31).
  - symmetry. apply E.
  - rewrite (E (x mod 2 ^ 32 - 2 ^ 32)), (E x).
    f_equal. replace (x mod 2 ^ 32 - 2 ^ 32) with (x mod 2 ^ 32 + (-1) * 2 ^ 32) by lia.
    rewrite Z.mod_add by lia. apply Z.mod_mod. lia.
Qed.

(** The loop body is one step of the recurrence: the signed reading of the
    operands does not change the low 32 bits of the exclusive or. *)
Lemma hash_step_spec (acc c : Z) : hash_step acc c = djb2_xor_step acc c.
Proof.
  unfold hash_step, djb2_xor_step, Int32.ushr0, Int32.ToUint32, Int32.xor.
  apply Z.bits_inj'. intros n Hn.
  destruct (Z.lt_ge_cases n 32).
  - rewrite !Z.mod_pow2_bits_low, !Z.lxor_spec, !ToInt32_testbit by lia. reflexivity.
  - rewrite !Z.mod_pow2_bits_high by lia. reflexivity.
Qed.

Lemma fold_hash_step_djb2 (s : jsstring) (acc : Z) :
  fold_left hash_step s acc = djb2_xor acc s.
Proof.
  revert acc. induction s as [|c s IH]; intros acc; simpl.
  - reflexivity.
  - rewrite hash_step_spec. apply IH.
Qed.

Lemma djb2_xor_range (s : jsstring) (acc : Z) :
  0 <= acc < 2 ^ 32 -> 0 <= djb2_xor acc s < 2 ^ 32.
Proof.
  revert acc. induction s as [|c s IH]; intros acc Hacc; simpl.
  - exact Hacc.
  - apply IH. unfold djb2_xor_step. apply Z.mod_pos_bound. lia.
Qed.

(** C5: for every string, [hashString] is the djb2-xor recurrence started at
    5381 (times 33, exclusive-or the code unit, truncated to unsigned 32
    bits); the empty string hashes to 5381; the result is always an integer
    in [0, 2^32). *)
Theorem hashString_is_djb2_xor (s : jsstring) :
  hashString s = djb2_xor 5381 s
  /\ hashString [] = 5381
  /\ 0 <= hashString s < 2 ^ 32.
Proof.
  unfold hashString. rewrite fold_hash_step_djb2.
  split; [reflexivity|]. split; [reflexivity|].
  apply djb2_xor_range. lia.
Qed.

(* ===================================================================== *)
(** * AssignmentKey: when the composite key identifies the pair *)
(* ===================================================================== *)

(** The code unit of [":"]. *)
Abbreviation colon := 58.

Lemma assignmentKey_unfold (s e : jsstring) : assignmentKey s e = s ++ colon :: e.
Proof. reflexivity. Qed.

(** Splitting at the first separator is unambiguous when the prefixes do
    not contain it. *)
Lemma split_at_first (x : Z) (l1 l2 t1 t2 : jsstring) :
  x ∉ l1 -> x ∉ l2 -> l1 ++ x :: t1 = l2 ++ x :: t2 -> l1 = l2 /\ t1 = t2.
Proof.
  revert l2. induction l1 as [|a l1 IH]; intros [|b l2] H1 H2 E; simpl in E.
  - inversion E. auto.
  - inversion E; subst. exfalso. apply H2. left.
  - inversion E; subst. exfalso. apply H1. left.
  - inversion E; subst.
    destruct (IH l2) as [-> ->]; auto.
    + intros ?. apply H1. now right.
    + intros ?. apply H2. now right.
Qed.

(** Splitting at the last separator is unambiguous when the suffixes do not
    contain it. *)
Lemma split_at_last (x : Z) (l1 l2 t1 t2 : jsstring) :
  x ∉ t1 -> x ∉ t2 -> l1 ++ x :: t1 = l2 ++ x :: t2 -> l1 = l2 /\ t1 = t2.
Proof.
  intros H1 H2 E. apply (f_equal (@rev Z)) in E.
  rewrite !rev_app_distr in E. simpl in E. rewrite <- !app_assoc in E. simpl in E.
  apply split_at_first in E.
  - destruct E as [E1 E2].
    apply (f_equal (@rev Z)) in E1, E2. rewrite !rev_involutive in E1, E2. auto.
  - intros Hin%list_elem_of_In%in_rev%list_elem_of_In. contradiction.
  - intros Hin%list_elem_of_In%in_rev%list_elem_of_In. contradiction.
Qed.

(** C1, as stated, fails: the pairs ("a:b", "c") and ("a", "b:c") are
    distinct and have the same composite key "a:b:c". *)
Lemma assignmentKey_collision :
  (utf16 "a:b", utf16 "c") <> (utf16 "a", utf16 "b:c")
  /\ assignmentKey (utf16 "a:b") (utf16 "c") = assignmentKey (utf16 "a") (utf16 "b:c").
Proof. split; [discriminate | reflexivity]. Qed.

(** C1, amended: two distinct pairs (sessionKey, experimentId) have distinct
    composite keys whenever neither experiment id contains [":"], or neither
    session key does. *)
Theorem assignmentKey_injective (s e s' e' : jsstring) :
  ((colon ∉ e) /\ (colon ∉ e')) \/ ((colon ∉ s) /\ (colon ∉ s')) ->
  (s, e) <> (s', e') ->
  assignmentKey s e <> assignmentKey s' e'.
Proof.
  intros H Hne E. rewrite !assignmentKey_unfold in E. apply Hne.
  destruct H as [[H1 H2]|[H1 H2]].
  - destruct (split_at_last _ _ _ _ _ H1 H2 E) as [-> ->]. reflexivity.
  - destruct (split_at_first _ _ _ _ _ H1 H2 E) as [-> ->]. reflexivity.
Qed.

Lemma assignmentKey_injective_witness :
  assignmentKey (utf16 "agent:main") (utf16 "tone-v1")
  <> assignmentKey (utf16 "agent:main") (utf16 "tone-v2").
Proof.
  apply assignmentKey_injective.
  - left. split; apply (bool_decide_unpack _); vm_compute; exact I.
  - discriminate.
Defined.

(* ===================================================================== *)
(** * WeightedSelector: totality and membership *)
(* ===================================================================== *)

Lemma select_loop_elem_of (p c : float) (vs : list PromptVariant) (ws : list float)
    (v : PromptVariant) :
  select_loop p c vs ws = Some v -> v ∈ vs.
Proof.
  revert c ws. induction vs as [|v0 vs IH]; intros c [|w ws] H; simpl in H;
    try discriminate.
  destruct (PrimFloat.ltb p (c + w)).
  - inversion H; subst. left.
  - right. eapply IH, H.
Qed.

Lemma last_elem_of {A} (l : list A) (a d : A) : List.last (a :: l) d ∈ a :: l.
Proof.
  revert a. induction l as [|b l IH]; intros a.
  - left.
  - right. exact (IH b).
Qed.

Lemma selectVariant_cons_ok (first : PromptVariant) (rest : list PromptVariant)
    (seed : Z) :
  exists v, selectVariant (first :: rest) seed = Ok v /\ v ∈ first :: rest.
Proof.
  unfold selectVariant.
  destruct (PrimFloat.leb _ _); [exists first; split; [reflexivity|left]|].
  destruct (select_loop _ _ _ _) as [v|] eqn:E.
  - exists v. split; [reflexivity|]. eapply select_loop_elem_of, E.
  - eexists. split; [reflexivity|]. apply last_elem_of.
Qed.

(** C6: [selectVariant] throws exactly on the empty list: on [[]] it throws
    for every seed, on a non-empty list it returns, for every seed, an
    element of the list, and on a one-element list it returns that element. *)
Theorem selectVariant_throws_iff_empty :
  (forall seed, exists msg, selectVariant [] seed = Throw msg)
  /\ (forall first rest seed, exists v,
        selectVariant (first :: rest) seed = Ok v /\ v ∈ first :: rest)
  /\ (forall v seed, selectVariant [v] seed = Ok v).
Proof.
  split; [|split].
  - intros seed. eexists. reflexivity.
  - apply selectVariant_cons_ok.
  - intros v seed. unfold selectVariant.
    destruct (PrimFloat.leb _ _); [reflexivity|].
    cbn [List.map select_loop].
    destruct (PrimFloat.ltb _ _); reflexivity.
Qed.

(* ===================================================================== *)
(** * WeightedSelector: the walk over the cumulative weights *)
(* ===================================================================== *)

Lemma select_loop_find (p c : float) (vs : list PromptVariant) (ws : list float) :
  select_loop p c vs ws =
  option_map fst
    (List.find (fun vc => PrimFloat.ltb p (snd vc))
               (combine vs (cumulative_weights c ws))).
Proof.
  revert c ws. induction vs as [|v vs IH]; intros c [|w ws]; try reflexivity.
  cbn [select_loop cumulative_weights combine List.find snd].
  destruct (PrimFloat.ltb p (c + w)); [reflexivity|apply IH].
Qed.

(** Apart from the range of the position, [selectVariant] is the selection
    of section 4.2: clamp, sum, first variant when the total is not
    positive, otherwise the first variant whose cumulative weight exceeds
    the position, or the last one. *)
Lemma selectVariant_as_stated (variants : list PromptVariant) (seed : Z) :
  selectVariant variants seed =
  match select_as_stated variants seed with
  | Some v => Ok v
  | None => Throw (utf16 "selectVariant: variants array must not be empty")
  end.
Proof.
  unfold selectVariant, select_as_stated.
  destruct variants as [|first rest]; [reflexivity|].
  destruct (PrimFloat.leb _ _); [reflexivity|].
  rewrite select_loop_find.
  destruct (List.find _ _) as [[v c]|]; reflexivity.
Qed.

(* ===================================================================== *)
(** * WeightedSelector on the seeds the tests use *)
(* ===================================================================== *)

(** C2 (the code departs from its test): over the seeds 0 to 9999 the pool
    [heavy: 9, light: 1] selects "heavy" every time, so the ratio the test
    computes is exactly 1, which is not below 0.95. *)
Theorem heavy_selected_for_every_small_seed :
  count_selected (utf16 "heavy") heavy_light_pool (seeds_from 0 (Z.to_nat 10000))
  = Z.to_nat 10000
  /\ heavyRatio = 1%float
  /\ PrimFloat.ltb heavyRatio 0x1.e666666666666p-1 = false.
Proof. vm_compute. auto. Qed.

(** C4 (the code departs from its own comment): for the seed -1 the computed
    position is negative, outside [0, totalWeight), and the variant of
    weight 0 is selected although another variant has positive weight. *)
Theorem negative_seed_position_out_of_range :
  let pool := [weighted "never" 0; weighted "always" 1] in
  let totalWeight := sum_weights (List.map effective_weight pool) in
  totalWeight = 1%float
  /\ position (-1) totalWeight = (-0x1.0c6f7a0b5ed8dp-20)%float
  /\ PrimFloat.ltb (position (-1) totalWeight) 0 = true
  /\ selectVariant pool (-1) = Ok (weighted "never" 0).
Proof. vm_compute. auto. Qed.

(* ===================================================================== *)
(** * Facts about doubles, from the specification of the primitives *)
(* ===================================================================== *)

Section FloatFacts.

Local Open Scope float_scope.

Lemma ltb_negative_nonnegative (p c : float) :
  sf_negative (Prim2SF p) = true ->
  sf_zero_or_positive (Prim2SF c) = true ->
  (p <? c) = true.
Proof.
  rewrite FloatAxioms.ltb_spec. unfold SFltb.
  destruct (Prim2SF p) as [[]|[]| |[] ? ?], (Prim2SF c) as [[]|[]| |[] ? ?];
    simpl; congruence.
Qed.

Lemma ltb_0_positive (x : float) : (0 <? x) = true -> sf_positive (Prim2SF x) = true.
Proof.
  rewrite FloatAxioms.ltb_spec. change (Prim2SF 0) with (S754_zero false). unfold SFltb.
  destruct (Prim2SF x) as [[]|[]| |[] ? ?]; simpl; congruence.
Qed.

Lemma ltb_0_negative (x : float) : (x <? 0) = true -> sf_negative (Prim2SF x) = true.
Proof.
  rewrite FloatAxioms.ltb_spec. change (Prim2SF 0) with (S754_zero false). unfold SFltb.
  destruct (Prim2SF x) as [[]|[]| |[] ? ?]; simpl; congruence.
Qed.

Lemma leb_0_positive (x : float) : sf_positive (Prim2SF x) = true -> (x <=? 0) = false.
Proof.
  rewrite FloatAxioms.leb_spec. change (Prim2SF 0) with (S754_zero false). unfold SFleb.
  destruct (Prim2SF x) as [[]|[]| |[] ? ?]; simpl; congruence.
Qed.

Lemma eqb_0_negative_zero (x : float) : Prim2SF x = S754_zero true -> (x =? 0) = true.
Proof.
  intros E. rewrite FloatAxioms.eqb_spec, E. reflexivity.
Qed.

(** [Math.max(0, w)] is [NaN] for a [NaN] weight, [w] for a positive one and
    [+0] otherwise. *)
Lemma max_0_l (w : float) :
  Number.max 0 w = if PrimFloat.is_nan w then nan else if 0 <? w then w else 0.
Proof. reflexivity. Qed.

Lemma max_0_cases (w : float) :
  Prim2SF (Number.max 0 w) = S754_nan
  \/ sf_zero_or_positive (Prim2SF (Number.max 0 w)) = true.
Proof.
  rewrite max_0_l. destruct (PrimFloat.is_nan w); [left; reflexivity|].
  right. destruct (0 <? w) eqn:E; [|reflexivity].
  apply ltb_0_positive in E. unfold sf_zero_or_positive.
  destruct (Prim2SF w); try discriminate; exact E.
Qed.

Lemma add_nan_l (a w : float) : Prim2SF a = S754_nan -> Prim2SF (a + w) = S754_nan.
Proof. intros E. rewrite FloatAxioms.add_spec, E. reflexivity. Qed.

Lemma add_nan_r (a w : float) : Prim2SF w = S754_nan -> Prim2SF (a + w) = S754_nan.
Proof.
  intros E. rewrite FloatAxioms.add_spec, E. unfold SF64add, SFadd. destruct (Prim2SF a); reflexivity.
Qed.

Lemma add_0_zero_or_positive (w : float) :
  sf_zero_or_positive (Prim2SF w) = true ->
  sf_zero_or_positive (Prim2SF (0 + w)) = true.
Proof.
  rewrite FloatAxioms.add_spec. change (Prim2SF 0) with (S754_zero false).
  unfold SF64add, SFadd.
  destruct (Prim2SF w) as [[]|[]| |[] ? ?]; simpl; congruence.
Qed.

Lemma fold_add_nan (ws : list float) (a : float) :
  Prim2SF a = S754_nan -> Prim2SF (fold_left PrimFloat.add ws a) = S754_nan.
Proof.
  revert a. induction ws as [|w ws IH]; intros a E; simpl; [exact E|].
  apply IH, add_nan_l, E.
Qed.

(** Rounding a non-negative mantissa keeps the sign it is given: the
    shifted mantissa never turns negative. *)
Lemma shr_1_nonneg (mrs : shr_record) : (0 <= shr_m mrs)%Z -> (0 <= shr_m (shr_1 mrs))%Z.
Proof.
  destruct mrs as [m r s]. simpl.
  destruct m as [|[p|p|]|p]; simpl; lia.
Qed.

Lemma iter_pos_invariant {A} (P : A -> Prop) (f : A -> A) :
  (forall x, P x -> P (f x)) -> forall n x, P x -> P (SpecFloat.iter_pos f n x).
Proof.
  intros Hf. induction n as [n IH|n IH|]; intros x Hx; simpl; auto.
Qed.

Lemma shr_nonneg (mrs : shr_record) (e n : Z) :
  (0 <= shr_m mrs)%Z -> (0 <= shr_m (fst (shr mrs e n)))%Z.
Proof.
  intros H. unfold shr. destruct n; simpl; auto.
  apply (iter_pos_invariant (fun r => (0 <= shr_m r)%Z)); auto using shr_1_nonneg.
Qed.

Lemma shr_fexp_nonneg (m e : Z) (l : location) :
  (0 <= m)%Z -> (0 <= shr_m (fst (shr_fexp prec emax m e l)))%Z.
Proof.
  intros H. unfold shr_fexp. apply shr_nonneg.
  destruct l as [|[]]; exact H.
Qed.

Lemma round_nearest_even_nonneg (m : Z) (l : location) :
  (0 <= m)%Z -> (0 <= round_nearest_even m l)%Z.
Proof.
  intros H. unfold round_nearest_even.
  destruct l as [|[]]; try lia. destruct (Z.even m); lia.
Qed.

Lemma binary_round_aux_sign (sx : bool) (mx ex : Z) (lx : location) :
  (0 <= mx)%Z ->
  match binary_round_aux prec emax sx mx ex lx with
  | S754_zero s | S754_infinity s | S754_finite s _ _ => s = sx
  | S754_nan => False
  end.
Proof.
  intros H. unfold binary_round_aux.
  pose proof (shr_fexp_nonneg mx ex lx H) as H1.
  destruct (shr_fexp prec emax mx ex lx) as [mrs' e']. simpl in H1.
  pose proof (shr_fexp_nonneg _ e' loc_Exact
                (round_nearest_even_nonneg _ (loc_of_shr_record mrs') H1)) as H2.
  destruct (shr_fexp prec emax _ e' loc_Exact) as [mrs'' e'']. simpl in H2.
  destruct (shr_m mrs'') as [|m|m]; [reflexivity| |lia].
  destruct (Z.leb e'' _); reflexivity.
Qed.

(** A strictly negative double times a strictly positive one is strictly
    negative, unless the product underflows to [-0]. *)
Lemma mul_negative_positive (q t : float) :
  sf_negative (Prim2SF q) = true ->
  sf_positive (Prim2SF t) = true ->
  Prim2SF (q * t) = S754_zero true \/ sf_negative (Prim2SF (q * t)) = true.
Proof.
  rewrite FloatAxioms.mul_spec. unfold SF64mul, SFmul.
  destruct (Prim2SF q) as [[]|[]| |[] mq eq], (Prim2SF t) as [[]|[]| |[] mt et];
    simpl; try congruence; intros _ _; try (right; reflexivity).
  pose proof (binary_round_aux_sign true (Zpos (mq * mt)) (eq + et) loc_Exact) as H.
  destruct (binary_round_aux _ _ _ _ _ _) as [s|s| |s m e];
    (assert (0 <= Zpos (mq * mt))%Z as H0 by lia; specialize (H H0));
    try contradiction; subst s; auto.
Qed.

Lemma all_from_spec (check : Z -> bool) (count : nat) (from r : Z) :
  all_from check from count = true ->
  (from <= r < from + Z.of_nat count)%Z ->
  check r = true.
Proof.
  revert from. induction count as [|count IH]; intros from H Hr; [lia|].
  simpl in H. destruct (check from) eqn:E; [|discriminate].
  destruct (Z.eq_dec r from) as [->|Hne]; [exact E|].
  apply (IH (from + 1)%Z); [exact H|lia].
Qed.

(** [(-r) / 1_000_000] is strictly negative for each of the 999,999
    possible non-zero remainders of a negative seed. *)
Lemma negative_remainders_checked :
  all_from (fun r => - Number.of_int r / 1000000 <? 0) 1 (Z.to_nat 999999) = true.
Proof. vm_compute. reflexivity. Qed.

Lemma rem_negative_seed (seed : Z) :
  (seed < 0)%Z -> Z.rem seed 1000000 <> 0%Z ->
  (Number.rem seed 1000000 / 1000000 <? 0) = true.
Proof.
  intros Hneg Hrem. unfold Number.rem.
  destruct (Z.ltb_spec seed 0) as [_|]; [|lia].
  pose proof (Z.rem_bound_pos_neg seed 1000000 eq_refl (Z.lt_le_incl _ _ Hneg)) as Hb.
  apply (all_from_spec _ _ _ (- Z.rem seed 1000000)%Z negative_remainders_checked).
  lia.
Qed.

End FloatFacts.

(* ===================================================================== *)
(** * WeightedSelector on negative seeds *)
(* ===================================================================== *)

(** C10, as stated, fails when the product underflows: with the weights 0
    and 2^-1074 (the smallest positive double) the total weight is
    positive and the seed -1 is negative and no multiple of 1,000,000, but
    the position is [-0], which is not below the first cumulative weight 0,
    and the second variant is returned. *)
Lemma negative_seed_underflow_selects_second :
  let pool := [weighted "a" 0; weighted "b" 0x1p-1074] in
  let totalWeight := sum_weights (List.map effective_weight pool) in
  PrimFloat.ltb 0 totalWeight = true
  /\ (-1 < 0)%Z /\ Z.rem (-1) 1000000 <> 0%Z
  /\ position (-1) totalWeight = (-0)%float
  /\ selectVariant pool (-1) = Ok (weighted "b" 0x1p-1074)
  /\ selectVariant pool (-1) <> Ok (weighted "a" 0).
Proof.
  vm_compute. repeat split; try reflexivity; discriminate.
Qed.

(** C10, amended: for a non-empty variant list whose clamped total weight is
    positive and a negative seed that is no multiple of 1,000,000,
    [selectVariant] returns the first variant of the list, whatever the
    weights (also when the first weight is 0), provided the computed
    position has not underflowed to zero. *)
Theorem negative_seed_selects_first (first : PromptVariant)
    (rest : list PromptVariant) (seed : Z) :
  PrimFloat.ltb 0 (sum_weights (List.map effective_weight (first :: rest))) = true ->
  (seed < 0)%Z ->
  Z.rem seed 1000000 <> 0%Z ->
  PrimFloat.eqb
    (position seed (sum_weights (List.map effective_weight (first :: rest)))) 0 = false ->
  selectVariant (first :: rest) seed = Ok first.
Proof.
  intros HT Hneg Hrem Hpos. unfold selectVariant.
  set (T := sum_weights (List.map effective_weight (first :: rest))) in *.
  pose proof (ltb_0_positive _ HT) as HTpos.
  rewrite (leb_0_positive _ HTpos).
  cbn [List.map select_loop].
  assert (Hp : PrimFloat.ltb (position seed T) (0 + effective_weight first) = true).
  { apply ltb_negative_nonnegative.
    - destruct (mul_negative_positive (Number.rem seed 1000000 / 1000000) T) as [Hz|Hn].
      + apply ltb_0_negative, rem_negative_seed; assumption.
      + exact HTpos.
      + apply eqb_0_negative_zero in Hz. unfold position in Hpos. congruence.
      + exact Hn.
    - unfold effective_weight.
      destruct (max_0_cases (default 1%float (v_weight first))) as [Hnan|Hok].
      + exfalso.
        assert (HTnan : Prim2SF T = S754_nan).
        { unfold T, sum_weights. cbn [List.map fold_left].
          apply fold_add_nan, add_nan_r. exact Hnan. }
        rewrite HTnan in HTpos. discriminate.
      + apply add_0_zero_or_positive, Hok. }
  rewrite Hp. reflexivity.
Qed.

Lemma negative_seed_selects_first_witness :
  selectVariant [weighted "never" 0; weighted "always" 1] (-1) = Ok (weighted "never" 0).
Proof.
  apply negative_seed_selects_first.
  - vm_compute. reflexivity.
  - lia.
  - vm_compute. discriminate.
  - vm_compute. reflexivity.
Defined.

(* ===================================================================== *)
(** * Running plugin computations *)
(* ===================================================================== *)

Lemma bind_run {A B} (m : M A) (k : A -> M B) (st : PluginState) :
  bind m k st =
  match m st with
  | (Ok a, st') => k a st'
  | (Throw msg, st') => (Throw msg, st')
  end.
Proof. reflexivity. Qed.

(* ===================================================================== *)
(** * AssignmentReporter: session end only reads the cache *)
(* ===================================================================== *)

Lemma collect_assignments_pure (k : jsstring) (exps : list AbTestExperiment)
    (st : PluginState) :
  exists entries, collect_assignments k exps st = (Ok entries, st).
Proof.
  induction exps as [|e exps [entries IH]]; simpl.
  - eexists. reflexivity.
  - unfold bind, cache_get. rewrite IH.
    destruct (assignmentCache st !! _); eexists; reflexivity.
Qed.

Lemma agent_end_cache (exps : list AbTestExperiment) (ctx : HookContext)
    (st : PluginState) :
  assignmentCache (snd (agent_end exps ctx st)) = assignmentCache st.
Proof.
  unfold agent_end.
  destruct (match sessionKey ctx with Some k => Some k | None => sessionId ctx end)
    as [k|]; [|reflexivity].
  destruct (negb (truthy k)); [reflexivity|].
  rewrite bind_run. destruct (collect_assignments_pure k exps st) as [entries ->].
  destruct entries; reflexivity.
Qed.

(** C9: the session-end handler leaves the assignment cache exactly as it
    found it, for every context and every prior state; and when both
    [sessionKey] and [sessionId] are absent it changes nothing at all, so no
    line is logged. *)
Theorem agent_end_leaves_cache_alone :
  (forall exps ctx st,
      assignmentCache (snd (agent_end exps ctx st)) = assignmentCache st)
  /\ (forall exps agent st,
        agent_end exps {| sessionKey := None; sessionId := None; agentId := agent |} st
        = (Ok tt, st)).
Proof.
  split; [exact agent_end_cache|reflexivity].
Qed.

(* ===================================================================== *)
(** * OverlayComposer: the merge rules *)
(* ===================================================================== *)

(** Running the handler's loop is resolving the assignments first and
    merging them afterwards. *)
Lemma prompt_build_loop_resolve (k : jsstring) (agent : option jsstring)
    (exps : list AbTestExperiment) (acc : option jsstring * list jsstring)
    (st : PluginState) :
  prompt_build_loop k agent exps acc st =
  match resolve_assignments k agent exps st with
  | (Ok vs, st') => (Ok (fold_left (fun a v => merge_variant v a) vs acc), st')
  | (Throw msg, st') => (Throw msg, st')
  end.
Proof.
  revert acc st. induction exps as [|e exps IH]; intros acc st; simpl.
  - reflexivity.
  - destruct (filtered_out agent e); [apply IH|].
    rewrite !bind_run.
    destruct (getVariantForSession k e st) as [[v|msg] st1]; [|reflexivity].
    rewrite IH, bind_run.
    destruct (resolve_assignments k agent exps st1) as [[vs|msg] st2]; reflexivity.
Qed.

Lemma omap_cons_unfold {A B} (f : A -> option B) (x : A) (l : list A) :
  omap f (x :: l) = match f x with Some y => y :: omap f l | None => omap f l end.
Proof. reflexivity. Qed.

Lemma merge_variants_fold (vs : list PromptVariant) (sp : option jsstring)
    (parts : list jsstring) :
  fold_left (fun a v => merge_variant v a) vs (sp, parts) =
  (match last (nonempty_systemPrompts vs) with Some s => Some s | None => sp end,
   parts ++ trimmed_contexts vs).
Proof.
  revert sp parts. induction vs as [|v vs IH]; intros sp parts.
  - simpl. rewrite app_nil_r. reflexivity.
  - cbn [fold_left]. unfold merge_variant. rewrite IH. clear IH.
    unfold nonempty_systemPrompts, trimmed_contexts. rewrite !omap_cons_unfold.
    f_equal.
    + destruct (v_systemPrompt v) as [s|]; [|reflexivity].
      cbn [List.filter]. destruct (truthy s); [|reflexivity].
      rewrite last_cons. destruct (last _); reflexivity.
    + destruct (v_prependContext v) as [c|]; [|reflexivity].
      cbn [List.map List.filter]. destruct (truthy (trim c)); [|reflexivity].
      rewrite <- app_assoc. reflexivity.
Qed.

(** Active experiments have a variant, so resolving never throws. *)
Lemma getVariantForSession_ok (k : jsstring) (e : AbTestExperiment) (st : PluginState) :
  e_variants e <> [] -> exists v st', getVariantForSession k e st = (Ok v, st').
Proof.
  intros Hne. unfold getVariantForSession, bind, cache_get.
  destruct (assignmentCache st !! _) as [v|]; [eexists _, _; reflexivity|].
  unfold lift, assignVariant.
  destruct (e_variants e) as [|first rest]; [contradiction|].
  destruct (selectVariant_cons_ok first rest (hashString (assignmentKey k (e_id e))))
    as (v & -> & _).
  unfold cache_set, log_debug. cbn [logger_has_debug].
  destruct (logger_has_debug st); eexists _, _; reflexivity.
Qed.

Lemma resolve_assignments_ok (k : jsstring) (agent : option jsstring)
    (exps : list AbTestExperiment) (st : PluginState) :
  Forall (fun e => e_variants e <> []) exps ->
  exists vs st', resolve_assignments k agent exps st = (Ok vs, st').
Proof.
  intros H. revert st. induction H as [|e exps He _ IH]; intros st; simpl.
  - eexists _, _. reflexivity.
  - destruct (filtered_out agent e); [apply IH|].
    rewrite bind_run.
    destruct (getVariantForSession_ok k e st He) as (v & st1 & ->).
    rewrite bind_run. destruct (IH st1) as (vs & st2 & ->).
    eexists _, _. reflexivity.
Qed.

Lemma prompt_session_key_default (ctx : HookContext) :
  default (default (utf16 "anonymous") (sessionId ctx)) (sessionKey ctx)
  = prompt_session_key ctx.
Proof.
  unfold prompt_session_key. destruct (sessionKey ctx), (sessionId ctx); reflexivity.
Qed.

(** What [register] keeps has a variant. *)
Lemma kept_non_blank_variants (raw : list (option RawExperiment)) :
  Forall (fun e => e_variants e <> []) (omap kept_non_blank raw).
Proof.
  induction raw as [|exp raw IH]; [constructor|].
  rewrite omap_cons_unfold.
  destruct (kept_non_blank exp) as [e|] eqn:E; [|exact IH].
  constructor; [|exact IH].
  unfold kept_non_blank, kept_when in E.
  destruct (as_experiment exp) as [e0|]; [|discriminate].
  destruct (e_variants e0) as [|v vs] eqn:Hv.
  - rewrite andb_false_r in E. discriminate.
  - destruct (_ && _); [|discriminate]. injection E as <-. rewrite Hv. discriminate.
Qed.

Lemma before_prompt_build_resolve (exps : list AbTestExperiment)
    (ctx : HookContext) (st : PluginState) :
  before_prompt_build exps ctx st =
  match resolve_assignments (prompt_session_key ctx) (agentId ctx) exps st with
  | (Ok assigned, st') =>
      (Ok match last (nonempty_systemPrompts assigned), trimmed_contexts assigned with
          | None, [] => None
          | sp, parts =>
              Some {| o_systemPrompt := sp;
                      o_prependContext :=
                        match parts with
                        | [] => None
                        | _ => Some (join [10; 10] parts)
                        end |}
          end, st')
  | (Throw msg, st') => (Throw msg, st')
  end.
Proof.
  unfold before_prompt_build. rewrite prompt_session_key_default, bind_run.
  rewrite prompt_build_loop_resolve.
  destruct (resolve_assignments _ _ exps st) as [[assigned|msg] st']; [|reflexivity].
  rewrite merge_variants_fold. cbn [app].
  destruct (last (nonempty_systemPrompts assigned)), (trimmed_contexts assigned);
    reflexivity.
Qed.

(** Unless the request's [agentId] is the empty string, the handler skips
    exactly the experiments that do not qualify. *)
Lemma filtered_out_qualifies (agent : option jsstring) (e : AbTestExperiment) :
  agent <> Some [] -> filtered_out agent e = negb (qualifies agent e).
Proof.
  intros Hagent. unfold filtered_out, qualifies.
  destruct (e_agentIds e) as [[|i ids]|]; [reflexivity| |reflexivity].
  destruct agent as [[|c a]|]; [congruence|reflexivity|reflexivity].
Qed.

Lemma resolve_assignments_qualifying (k : jsstring) (agent : option jsstring)
    (exps : list AbTestExperiment) (st : PluginState) :
  agent <> Some [] ->
  resolve_assignments k agent exps st
  = assign_each k (List.filter (qualifies agent) exps) st.
Proof.
  intros Hagent. revert st. induction exps as [|e exps IH]; intros st; [reflexivity|].
  cbn [resolve_assignments List.filter].
  rewrite (filtered_out_qualifies agent e Hagent).
  destruct (qualifies agent e); cbn [negb]; [|apply IH].
  cbn [assign_each]. rewrite !bind_run.
  destruct (getVariantForSession k e st) as [[v|msg] st1]; [|reflexivity].
  rewrite !bind_run, IH. reflexivity.
Qed.

(** The handler's result in terms of the variants it resolved. *)
Lemma before_prompt_build_merge (exps : list AbTestExperiment) (ctx : HookContext)
    (st : PluginState) :
  match resolve_assignments (prompt_session_key ctx) (agentId ctx) exps st with
  | (Ok assigned, st') =>
      exists r,
        before_prompt_build exps ctx st = (Ok r, st')
        /\ (r = None <->
            nonempty_systemPrompts assigned = [] /\ trimmed_contexts assigned = [])
        /\ (forall o, r = Some o ->
              o_systemPrompt o = last (nonempty_systemPrompts assigned)
              /\ o_prependContext o =
                 match trimmed_contexts assigned with
                 | [] => None
                 | parts => Some (join [10; 10] parts)
                 end)
  | (Throw msg, st') => before_prompt_build exps ctx st = (Throw msg, st')
  end.
Proof.
  rewrite before_prompt_build_resolve.
  destruct (resolve_assignments _ _ exps st) as [[assigned|msg] st']; [|reflexivity].
  destruct (last (nonempty_systemPrompts assigned)) as [s|] eqn:Hs.
  + assert (Hne : nonempty_systemPrompts assigned <> [])
      by (intros Hnil; rewrite Hnil in Hs; discriminate).
    destruct (trimmed_contexts assigned) as [|p parts];
      (eexists; split; [reflexivity|]; split;
       [split; [discriminate|intros [? ?]; contradiction]
       |intros o [= <-]; split; reflexivity]).
  + apply last_None in Hs.
    destruct (trimmed_contexts assigned) as [|p parts].
    * eexists. split; [reflexivity|]. split; [split; auto|discriminate].
    * eexists. split; [reflexivity|]. split.
      -- split; [discriminate|]. intros [_ ?]. discriminate.
      -- intros o [= <-]. split; reflexivity.
Qed.

(** C7, as stated, fails for a request whose [agentId] is the empty
    string: the experiment lists that very id, so it qualifies, and the
    variant assigned to the session has a non-empty [systemPrompt]; yet the
    handler skips the experiment ([!agentId] holds of the empty string) and
    returns [undefined]. *)
Theorem listed_empty_agentId_is_skipped :
  let alex :=
    {| v_id := utf16 "alex"; v_weight := None; v_prependContext := None;
       v_systemPrompt := Some (utf16 "You are Alex.") |} in
  let identity :=
    {| e_id := utf16 "identity"; e_description := None; e_enabled := None;
       e_variants := [alex]; e_agentIds := Some [[]] |} in
  let ctx :=
    {| sessionKey := Some (utf16 "sess-1"); sessionId := None; agentId := Some [] |} in
  List.filter (qualifies (agentId ctx)) [identity] = [identity]
  /\ fst (assign_each (prompt_session_key ctx) [identity] initial_state) = Ok [alex]
  /\ nonempty_systemPrompts [alex] = [utf16 "You are Alex."]
  /\ fst (before_prompt_build [identity] ctx initial_state) = Ok None.
Proof. vm_compute. repeat split; reflexivity. Qed.

(** C7: for a request whose [agentId] is not the empty string, let
    [assigned] be the variants the session is assigned, in iteration order,
    for the qualifying experiments: those without an [agentIds] allow-list
    (or with an empty one) and those whose list contains the request's
    [agentId].  Then the handler's result has as [systemPrompt] the last
    non-empty [systemPrompt] among them, as [prependContext] their trimmed
    non-empty [prependContext] values in order joined by a blank line, each
    field present exactly when there is such a value, and the result is
    [undefined] exactly when there is neither.  Over the active list of any
    configuration the handler returns (it does not throw), whatever the
    request. *)
Theorem before_prompt_build_overlay :
  (forall (exps : list AbTestExperiment) (ctx : HookContext) (st : PluginState),
      agentId ctx <> Some [] ->
      match assign_each (prompt_session_key ctx)
              (List.filter (qualifies (agentId ctx)) exps) st with
      | (Ok assigned, st') =>
          exists r,
            before_prompt_build exps ctx st = (Ok r, st')
            /\ (r = None <->
                nonempty_systemPrompts assigned = [] /\ trimmed_contexts assigned = [])
            /\ (forall o, r = Some o ->
                  o_systemPrompt o = last (nonempty_systemPrompts assigned)
                  /\ o_prependContext o =
                     match trimmed_contexts assigned with
                     | [] => None
                     | parts => Some (join [10; 10] parts)
                     end)
      | (Throw msg, st') => before_prompt_build exps ctx st = (Throw msg, st')
      end)
  /\ (forall (pluginConfig : option PromptAbTestConfig) (ctx : HookContext)
             (st : PluginState),
        exists r st',
          before_prompt_build (omap kept_non_blank (raw_entries pluginConfig)) ctx st
          = (Ok r, st')).
Proof.
  split.
  - intros exps ctx st Hagent.
    rewrite <- (resolve_assignments_qualifying _ _ _ _ Hagent).
    apply before_prompt_build_merge.
  - intros pluginConfig ctx st. rewrite before_prompt_build_resolve.
    destruct (resolve_assignments_ok (prompt_session_key ctx) (agentId ctx) _ st
                (kept_non_blank_variants (raw_entries pluginConfig)))
      as (assigned & st' & ->).
    eexists _, _. reflexivity.
Qed.

(** An allow-listed experiment, an unrestricted one and one whose list does
    not hold the request's agent: the first two qualify, in this order. *)
Lemma before_prompt_build_overlay_witness :
  let alex :=
    {| v_id := utf16 "alex"; v_weight := None; v_prependContext := None;
       v_systemPrompt := Some (utf16 "You are Alex.") |} in
  let brief :=
    {| v_id := utf16 "brief"; v_weight := None;
       v_prependContext := Some (utf16 "  Keep replies short. ");
       v_systemPrompt := None |} in
  let pirate :=
    {| v_id := utf16 "pirate"; v_weight := None; v_prependContext := None;
       v_systemPrompt := Some (utf16 "You are a pirate.") |} in
  let restricted (id agent : jsstring) (v : PromptVariant) :=
    {| e_id := id; e_description := None; e_enabled := None;
       e_variants := [v]; e_agentIds := Some [agent] |} in
  let exps :=
    [restricted (utf16 "identity") (utf16 "main") alex;
     experiment "brevity" [brief];
     restricted (utf16 "voice") (utf16 "other") pirate] in
  let ctx :=
    {| sessionKey := Some (utf16 "sess-1"); sessionId := None;
       agentId := Some (utf16 "main") |} in
  agentId ctx <> Some []
  /\ List.filter (qualifies (agentId ctx)) exps
     = [restricted (utf16 "identity") (utf16 "main") alex; experiment "brevity" [brief]]
  /\ match assign_each (prompt_session_key ctx)
             (List.filter (qualifies (agentId ctx)) exps) initial_state with
     | (Ok assigned, st') =>
         exists r,
           before_prompt_build exps ctx initial_state = (Ok r, st')
           /\ (r = None <->
               nonempty_systemPrompts assigned = [] /\ trimmed_contexts assigned = [])
           /\ (forall o, r = Some o ->
                 o_systemPrompt o = last (nonempty_systemPrompts assigned)
                 /\ o_prependContext o =
                    match trimmed_contexts assigned with
                    | [] => None
                    | parts => Some (join [10; 10] parts)
                    end)
     | (Throw msg, st') => before_prompt_build exps ctx initial_state = (Throw msg, st')
     end.
Proof.
  cbv zeta. split; [discriminate|]. split; [vm_compute; reflexivity|].
  apply (proj1 before_prompt_build_overlay). discriminate.
Defined.

(** The test "combines prependContext from multiple concurrent
    experiments": both texts, in configured order, joined by a blank line. *)
Example combines_prependContext :
  let formal :=
    {| v_id := utf16 "formal"; v_weight := Some 1%float;
       v_prependContext := Some (utf16 "Use formal language.");
       v_systemPrompt := None |} in
  let brief :=
    {| v_id := utf16 "brief"; v_weight := Some 1%float;
       v_prependContext := Some (utf16 "Keep replies under 3 sentences.");
       v_systemPrompt := None |} in
  let active :=
    [experiment "tone-test" [formal; weighted "control" 0];
     experiment "brevity-test" [weighted "control" 0; brief]] in
  fst (before_prompt_build active
         {| sessionKey := Some (utf16 "multi-exp-sess"); sessionId := None;
            agentId := Some (utf16 "agent-1") |} initial_state)
  = Ok (Some {| o_systemPrompt := None;
                o_prependContext :=
                  Some (utf16 "Use formal language." ++ [10; 10]
                        ++ utf16 "Keep replies under 3 sentences.") |}).
Proof. vm_compute. reflexivity. Qed.

(** The tests on the [agentIds] filter: skipped for "blocked-agent",
    applied for "allowed-agent". *)
Example agent_filter :
  let active_variant :=
    {| v_id := utf16 "active"; v_weight := Some 1%float;
       v_prependContext := Some (utf16 "INJECTED"); v_systemPrompt := None |} in
  let filtered :=
    {| e_id := utf16 "agent-filtered"; e_description := None; e_enabled := None;
       e_variants := [weighted "control" 0; active_variant];
       e_agentIds := Some [utf16 "allowed-agent"] |} in
  let ctx agent :=
    {| sessionKey := Some (utf16 "sess-1"); sessionId := None;
       agentId := Some (utf16 agent) |} in
  fst (before_prompt_build [filtered] (ctx "blocked-agent"%string) initial_state) = Ok None
  /\ fst (before_prompt_build [filtered] (ctx "allowed-agent"%string) initial_state)
     = Ok (Some {| o_systemPrompt := None;
                   o_prependContext := Some (utf16 "INJECTED") |}).
Proof. vm_compute. split; reflexivity. Qed.

(* ===================================================================== *)
(** * ExperimentRegistry: the active list and the idle state *)
(* ===================================================================== *)

Lemma add_lines_nil (st : PluginState) : add_lines st [] = st.
Proof. destruct st. unfold add_lines. simpl. rewrite app_nil_r. reflexivity. Qed.

Lemma add_lines_app (st : PluginState) (l1 l2 : list (LogLevel * jsstring)) :
  add_lines (add_lines st l1) l2 = add_lines st (l1 ++ l2).
Proof. unfold add_lines. simpl. rewrite app_assoc. reflexivity. Qed.

Ltac dropped_with_warning W :=
  eexists None, _; split; [reflexivity|]; split; [apply W|reflexivity].

(** The first filter's callback only warns, and what it keeps and is
    enabled is what [kept_non_blank] keeps. *)
Lemma validate_spec (exp : option RawExperiment) (st : PluginState) :
  exists kept warnings,
    validate exp st = (Ok kept, add_lines st warnings)
    /\ Forall (fun line => fst line = LWarn) warnings
    /\ List.filter is_enabled (option_list kept) = option_list (kept_non_blank exp).
Proof.
  assert (W : forall msg, Forall (fun line : LogLevel * jsstring => fst line = LWarn)
                            [(LWarn, msg)]) by (repeat constructor).
  unfold validate, kept_non_blank, kept_when, as_experiment.
  destruct exp as [raw|]; [|dropped_with_warning W].
  destruct (raw_id raw) as [id|]; [|dropped_with_warning W].
  destruct (raw_variants raw) as [[|v vs]|];
    cbn [e_id e_variants e_enabled truthy_list];
    destruct (truthy (trim id)); cbn [negb andb];
    try dropped_with_warning W.
  exists (Some {| e_id := id; e_description := raw_description raw;
                  e_enabled := raw_enabled raw; e_variants := v :: vs;
                  e_agentIds := raw_agentIds raw |}), [].
  rewrite add_lines_nil. split; [reflexivity|]. split; [constructor|].
  cbn [option_list List.filter]. unfold is_enabled.
  cbn [e_enabled]. destruct (raw_enabled raw) as [[]|]; reflexivity.
Qed.

Lemma filter_valid_spec (raw : list (option RawExperiment)) (st : PluginState) :
  exists valid warnings,
    filter_valid raw st = (Ok valid, add_lines st warnings)
    /\ Forall (fun line => fst line = LWarn) warnings
    /\ List.filter is_enabled valid = omap kept_non_blank raw.
Proof.
  revert st. induction raw as [|exp raw IH]; intros st.
  - exists [], []. rewrite add_lines_nil. split; [reflexivity|]. split; [constructor|reflexivity].
  - cbn [filter_valid]. rewrite bind_run.
    destruct (validate_spec exp st) as (kept & w1 & -> & Hw1 & Hk).
    rewrite bind_run.
    destruct (IH (add_lines st w1)) as (valid & w2 & -> & Hw2 & Hv).
    rewrite add_lines_app.
    eexists _, (w1 ++ w2). split; [reflexivity|]. split.
    + apply Forall_app; auto.
    + rewrite omap_cons_unfold.
      destruct kept as [e|], (kept_non_blank exp) as [e'|];
        simpl in Hk; cbn [option_list List.filter].
      * destruct (is_enabled e); [|discriminate Hk].
        injection Hk as ->. f_equal. exact Hv.
      * destruct (is_enabled e); [discriminate Hk|exact Hv].
      * discriminate Hk.
      * exact Hv.
Qed.

(** C8, as stated, fails: an entry whose id is the one-space string has a
    non-empty string id, a non-empty variants array and no [enabled] flag,
    yet [register] drops it and ends up idle. *)
Lemma register_drops_blank_id :
  let entry :=
    Some {| raw_id := Some (utf16 " "); raw_description := None;
            raw_enabled := None; raw_variants := Some [weighted "control" 1];
            raw_agentIds := None |} in
  omap kept_as_stated [entry] <> []
  /\ fst (register (Some {| experiments := Some [entry] |}) initial_state) = Ok [].
Proof. split; [discriminate|reflexivity]. Qed.

(** C8, amended: [register] keeps, as the active list and in order, exactly
    the raw entries that have a string id that is non-empty after trimming
    white space, a non-empty variants array, and an [enabled] flag that is
    not explicitly [false]; and when that list is empty it registers no
    hook and, after the warnings, logs one informational line that contains
    "idle". *)
Theorem register_active_list (pluginConfig : option PromptAbTestConfig)
    (st : PluginState) :
  exists st',
    register pluginConfig st
    = (Ok (omap kept_non_blank (raw_entries pluginConfig)), st')
    /\ (omap kept_non_blank (raw_entries pluginConfig) = [] ->
        hooks st' = hooks st
        /\ exists warnings msg,
             logger st' = logger st ++ warnings ++ [(LInfo, msg)]
             /\ Forall (fun line => fst line = LWarn) warnings
             /\ includes (utf16 "idle") msg = true).
Proof.
  unfold register.
  replace (default [] (experiments (default {| experiments := None |} pluginConfig)))
    with (raw_entries pluginConfig) by (destruct pluginConfig; reflexivity).
  rewrite bind_run.
  destruct (filter_valid_spec (raw_entries pluginConfig) st)
    as (valid & warnings & -> & Hw & ->).
  destruct (omap kept_non_blank (raw_entries pluginConfig)) as [|e active].
  - eexists. split; [reflexivity|]. intros _. split; [reflexivity|].
    exists warnings. eexists. split; [|split; [exact Hw|]].
    + cbn [logger add_lines]. rewrite <- app_assoc. reflexivity.
    + vm_compute. reflexivity.
  - eexists. split; [reflexivity|]. discriminate.
Qed.

(* ===================================================================== *)
(** * AssignmentStore: the cache against recomputation *)
(* ===================================================================== *)

Lemma getVariantForSession_result (k : jsstring) (e : AbTestExperiment)
    (st : PluginState) :
  fst (getVariantForSession k e st) =
  match assignmentCache st !! assignmentKey k (e_id e) with
  | Some v => Ok v
  | None => assignVariant k (e_id e) (e_variants e)
  end.
Proof.
  unfold getVariantForSession. rewrite bind_run. unfold cache_get.
  destruct (assignmentCache st !! _) as [v|]; [reflexivity|].
  rewrite bind_run. unfold lift.
  destruct (assignVariant k (e_id e) (e_variants e)); [|reflexivity].
  rewrite !bind_run. unfold cache_set, log_debug. cbn [logger_has_debug].
  destruct (logger_has_debug st); reflexivity.
Qed.

Lemma getVariantForSession_cache (k : jsstring) (e : AbTestExperiment)
    (st : PluginState) :
  assignmentCache (snd (getVariantForSession k e st)) =
  match assignmentCache st !! assignmentKey k (e_id e),
        assignVariant k (e_id e) (e_variants e) with
  | None, Ok v => <[assignmentKey k (e_id e) := v]> (assignmentCache st)
  | _, _ => assignmentCache st
  end.
Proof.
  unfold getVariantForSession. rewrite bind_run. unfold cache_get.
  destruct (assignmentCache st !! _) as [v|]; [reflexivity|].
  rewrite bind_run. unfold lift.
  destruct (assignVariant k (e_id e) (e_variants e)); [|reflexivity].
  rewrite !bind_run. unfold cache_set, log_debug. cbn [logger_has_debug].
  destruct (logger_has_debug st); reflexivity.
Qed.

Lemma getVariantForSession_sound (exps : list AbTestExperiment) (k : jsstring)
    (e : AbTestExperiment) (st : PluginState) :
  e ∈ exps ->
  cache_sound exps (assignmentCache st) ->
  cache_sound exps (assignmentCache (snd (getVariantForSession k e st))).
Proof.
  intros He Hst. rewrite getVariantForSession_cache.
  destruct (assignmentCache st !! assignmentKey k (e_id e)) eqn:Hl; [exact Hst|].
  destruct (assignVariant k (e_id e) (e_variants e)) as [v|msg] eqn:Ha; [|exact Hst].
  intros key v' Hkey.
  destruct (decide (assignmentKey k (e_id e) = key)) as [<-|Hne].
  - rewrite lookup_insert_eq in Hkey. injection Hkey as <-.
    exists k, e. auto.
  - rewrite lookup_insert_ne in Hkey by exact Hne. apply Hst, Hkey.
Qed.

Lemma prompt_build_loop_sound (exps : list AbTestExperiment) (k : jsstring)
    (agent : option jsstring) (todo : list AbTestExperiment)
    (acc : option jsstring * list jsstring) (st : PluginState) :
  Forall (fun e => e ∈ exps) todo ->
  cache_sound exps (assignmentCache st) ->
  cache_sound exps (assignmentCache (snd (prompt_build_loop k agent todo acc st))).
Proof.
  intros Htodo. revert acc st.
  induction Htodo as [|e todo He _ IH]; intros acc st Hst; simpl; [exact Hst|].
  destruct (filtered_out agent e); [apply IH, Hst|].
  rewrite bind_run.
  pose proof (getVariantForSession_sound exps k e st He Hst) as H1.
  destruct (getVariantForSession k e st) as [[v|msg] st1]; simpl in H1 |- *.
  - apply IH, H1.
  - exact H1.
Qed.

Lemma before_prompt_build_sound (exps : list AbTestExperiment) (ctx : HookContext)
    (st : PluginState) :
  cache_sound exps (assignmentCache st) ->
  cache_sound exps (assignmentCache (snd (before_prompt_build exps ctx st))).
Proof.
  intros Hst. unfold before_prompt_build. rewrite bind_run.
  assert (Hall : Forall (fun e => e ∈ exps) exps) by (apply Forall_forall; auto).
  pose proof (prompt_build_loop_sound exps
                (default (default (utf16 "anonymous") (sessionId ctx)) (sessionKey ctx))
                (agentId ctx) exps (None, []) st Hall Hst) as H.
  destruct (prompt_build_loop _ _ exps _ st) as [[[sp parts]|msg] st1];
    simpl in H |- *; [|exact H].
  destruct sp, parts; exact H.
Qed.

Lemma reachable_sound (exps : list AbTestExperiment) (st : PluginState) :
  reachable exps st -> cache_sound exps (assignmentCache st).
Proof.
  induction 1 as [lines registered|st ctx _ IH|st ctx _ IH].
  - intros key v H. simpl in H. rewrite lookup_empty in H. discriminate.
  - apply before_prompt_build_sound, IH.
  - rewrite agent_end_cache. exact IH.
Qed.

Lemma unique_id_determines (exps : list AbTestExperiment) (e e' : AbTestExperiment) :
  NoDup (List.map e_id exps) -> e ∈ exps -> e' ∈ exps -> e_id e = e_id e' -> e = e'.
Proof.
  induction exps as [|x exps IH]; intros Hnd He He' Hid.
  - inversion He.
  - simpl in Hnd. apply NoDup_cons in Hnd as [Hx Hnd].
    assert (Hin : forall y, y ∈ exps -> e_id y ∈ List.map e_id exps).
    { intros y Hy. apply list_elem_of_In, in_map, list_elem_of_In, Hy. }
    apply elem_of_cons in He as [->|He]; apply elem_of_cons in He' as [->|He'].
    + reflexivity.
    + exfalso. apply Hx. rewrite Hid. auto.
    + exfalso. apply Hx. rewrite <- Hid. auto.
    + auto.
Qed.

(** C3, as stated, fails: the experiment ids "x" and "b:x" are distinct, but
    the pairs ("a:b", "x") and ("a", "b:x") share the cache key "a:b:x".
    After one prompt build for the session "a:b", the lookup for the session
    "a" and the second experiment returns the first experiment's variant
    "a", while recomputing gives "b". *)
Lemma memoized_variant_differs_for_colon_id :
  let e1 := experiment "x" [weighted "a" 1] in
  let e2 := experiment "b:x" [weighted "b" 1] in
  let st := snd (before_prompt_build [e1; e2] (session "a:b") initial_state) in
  fst (register (Some {| experiments :=
                           Some [raw_experiment "x" [weighted "a" 1];
                                 raw_experiment "b:x" [weighted "b" 1]] |})
         initial_state) = Ok [e1; e2]
  /\ reachable [e1; e2] st
  /\ e2 ∈ [e1; e2]
  /\ fst (getVariantForSession (utf16 "a") e2 st) = Ok (weighted "a" 1)
  /\ assignVariant (utf16 "a") (e_id e2) (e_variants e2) = Ok (weighted "b" 1).
Proof.
  cbv zeta. split; [reflexivity|]. split; [|split; [|split]].
  - apply reachable_prompt_build, reachable_registered.
  - right. left.
  - vm_compute. reflexivity.
  - vm_compute. reflexivity.
Qed.

(** The same happens when two active experiments share an id, which
    [register] does not rule out: after one prompt build for the session
    "s", the lookup for the second experiment returns the first one's
    variant. *)
Lemma memoized_variant_differs_for_shared_id :
  let e1 := experiment "x" [weighted "a" 1] in
  let e2 := experiment "x" [weighted "b" 1] in
  let st := snd (before_prompt_build [e1; e2] (session "s") initial_state) in
  fst (register (Some {| experiments :=
                           Some [raw_experiment "x" [weighted "a" 1];
                                 raw_experiment "x" [weighted "b" 1]] |})
         initial_state) = Ok [e1; e2]
  /\ reachable [e1; e2] st
  /\ fst (getVariantForSession (utf16 "s") e2 st) = Ok (weighted "a" 1)
  /\ assignVariant (utf16 "s") (e_id e2) (e_variants e2) = Ok (weighted "b" 1).
Proof.
  cbv zeta. split; [reflexivity|]. split; [|split].
  - apply reachable_prompt_build, reachable_registered.
  - vm_compute. reflexivity.
  - vm_compute. reflexivity.
Qed.

(** C3, amended: when the active experiments have pairwise distinct ids
    that contain no [":"], then in every state reachable by prompt-build and
    session-end calls, for every session key and every active experiment,
    the memoized lookup returns exactly what recomputing with
    [assignVariant] returns. *)
Theorem getVariantForSession_is_assignVariant (exps : list AbTestExperiment)
    (st : PluginState) (k : jsstring) (e : AbTestExperiment) :
  NoDup (List.map e_id exps) ->
  Forall (fun x => colon ∉ e_id x) exps ->
  reachable exps st ->
  e ∈ exps ->
  fst (getVariantForSession k e st) = assignVariant k (e_id e) (e_variants e).
Proof.
  intros Hnd Hcolon Hreach He. rewrite getVariantForSession_result.
  destruct (assignmentCache st !! assignmentKey k (e_id e)) as [v|] eqn:Hl;
    [|reflexivity].
  destruct (reachable_sound exps st Hreach _ _ Hl) as (k' & e' & He' & Hkey & Hv).
  rewrite Forall_forall in Hcolon.
  rewrite !assignmentKey_unfold in Hkey.
  destruct (split_at_last _ _ _ _ _ (Hcolon e He) (Hcolon e' He') Hkey) as [-> Hid].
  rewrite (unique_id_determines exps e e' Hnd He He' Hid). symmetry. exact Hv.
Qed.

Lemma getVariantForSession_is_assignVariant_witness :
  let control := weighted "control" 1 in
  let variant_a := weighted "variant-a" 1 in
  let tone := experiment "tone" [control; variant_a] in
  let safety := experiment "safety" [variant_a; control] in
  let st := snd (before_prompt_build [tone; safety] (session "agent:main:main")
                   initial_state) in
  fst (getVariantForSession (utf16 "agent:main:main") safety st)
  = assignVariant (utf16 "agent:main:main") (e_id safety) (e_variants safety).
Proof.
  cbv zeta. apply (getVariantForSession_is_assignVariant
                     [experiment "tone" [weighted "control" 1; weighted "variant-a" 1];
                      experiment "safety" [weighted "variant-a" 1; weighted "control" 1]]).
  - apply (bool_decide_unpack _). vm_compute. exact I.
  - repeat constructor; apply (bool_decide_unpack _); vm_compute; exact I.
  - apply reachable_prompt_build, reachable_registered.
  - right. left.
Defined.

(* ===================================================================== *)
(** * WeightedSelector: which variants can be selected *)
(* ===================================================================== *)

Section SelectFacts.

Local Open Scope float_scope.

Lemma binary_round_positive_sign (m : positive) (e : Z) :
  match binary_round prec emax false m e with
  | S754_zero s | S754_infinity s | S754_finite s _ _ => s = false
  | S754_nan => False
  end.
Proof.
  unfold binary_round.
  destruct (shl_align _ _ _) as [mz ez]. apply binary_round_aux_sign. lia.
Qed.

(** Adding two doubles that are zero or positive gives one. *)
Lemma add_zero_or_positive (a w : float) :
  sf_zero_or_positive (Prim2SF a) = true ->
  sf_zero_or_positive (Prim2SF w) = true ->
  sf_zero_or_positive (Prim2SF (a + w)) = true.
Proof.
  rewrite FloatAxioms.add_spec. unfold SF64add, SFadd.
  destruct (Prim2SF a) as [[]|[]| |[] ma ea], (Prim2SF w) as [[]|[]| |[] mw ew];
    simpl; try congruence; intros _ _.
  pose proof (binary_round_positive_sign
                (fst (shl_align ma ea (Z.min ea ew)) + fst (shl_align mw ew (Z.min ea ew)))
                (Z.min ea ew)) as H.
  destruct (binary_round _ _ _ _ _) as [s|s| |s m e]; try contradiction;
    subst s; reflexivity.
Qed.

(** The running sum of clamped weights is [NaN], a zero or positive. *)
Lemma sum_clamped_cases (vs : list PromptVariant) (a : float) :
  Prim2SF a = S754_nan \/ sf_zero_or_positive (Prim2SF a) = true ->
  let total := fold_left PrimFloat.add (List.map effective_weight vs) a in
  Prim2SF total = S754_nan \/ sf_zero_or_positive (Prim2SF total) = true.
Proof.
  revert a. induction vs as [|v vs IH]; intros a Ha; [exact Ha|].
  cbn [List.map fold_left]. apply IH.
  destruct Ha as [Ha|Ha]; [left; apply add_nan_l, Ha|].
  destruct (max_0_cases (default 1 (v_weight v))) as [Hw|Hw].
  - left. apply add_nan_r, Hw.
  - right. apply add_zero_or_positive; assumption.
Qed.

Lemma leb_0_zero_or_positive (x : float) :
  (0 <=? x) = true -> sf_zero_or_positive (Prim2SF x) = true.
Proof.
  rewrite FloatAxioms.leb_spec. change (Prim2SF 0) with (S754_zero false). unfold SFleb.
  destruct (Prim2SF x) as [[]|[]| |[] ? ?]; simpl; congruence.
Qed.

(** A zero or positive double times a double that is [NaN], zero or
    positive is not below zero. *)
Lemma mul_not_negative (q t : float) :
  sf_zero_or_positive (Prim2SF q) = true ->
  Prim2SF t = S754_nan \/ sf_zero_or_positive (Prim2SF t) = true ->
  (q * t <? 0) = false.
Proof.
  rewrite FloatAxioms.ltb_spec, FloatAxioms.mul_spec.
  change (Prim2SF 0) with (S754_zero false). unfold SF64mul, SFmul, SFltb.
  intros Hq [Ht|Ht].
  - rewrite Ht. destruct (Prim2SF q); reflexivity.
  - destruct (Prim2SF q) as [[]|[]| |[] mq eq], (Prim2SF t) as [[]|[]| |[] mt et];
      simpl in *; try congruence.
    pose proof (binary_round_aux_sign false (Zpos (mq * mt)) (eq + et) loc_Exact) as H.
    destruct (binary_round_aux _ _ _ _ _ _) as [s|s| |s m e];
      (assert (0 <= Zpos (mq * mt))%Z as H0 by lia; specialize (H H0));
      try contradiction; subst s; reflexivity.
Qed.

(** Adding a zero does not change what lies below the sum. *)
Lemma ltb_add_zero (p c w : float) (s : bool) :
  Prim2SF w = S754_zero s -> (p <? c + w) = (p <? c).
Proof.
  intros Hw. rewrite !FloatAxioms.ltb_spec, FloatAxioms.add_spec, Hw.
  unfold SF64add, SFadd, SFltb.
  destruct (Prim2SF c) as [[]|[]| |[] mc ec], s,
    (Prim2SF p) as [[]|[]| |[] mp ep]; reflexivity.
Qed.

Lemma all_nonnegative_remainders_checked :
  all_from (fun r => 0 <=? Number.of_int r / 1000000) 0 (Z.to_nat 1000000) = true.
Proof. vm_compute. reflexivity. Qed.

Lemma rem_nonnegative_seed (seed : Z) :
  (0 <= seed)%Z ->
  sf_zero_or_positive (Prim2SF (Number.rem seed 1000000 / 1000000)) = true.
Proof.
  intros Hseed. apply leb_0_zero_or_positive. unfold Number.rem.
  destruct (Z.ltb_spec seed 0) as [|_]; [lia|].
  pose proof (Z.rem_bound_pos_pos seed 1000000 eq_refl Hseed) as Hb.
  apply (all_from_spec _ _ _ (Z.rem seed 1000000) all_nonnegative_remainders_checked).
  lia.
Qed.

(** For a seed that is not negative the position is never below zero. *)
Lemma position_not_negative (vs : list PromptVariant) (seed : Z) :
  (0 <= seed)%Z ->
  (position seed (sum_weights (List.map effective_weight vs)) <? 0) = false.
Proof.
  intros Hseed. unfold position. apply mul_not_negative.
  - apply rem_nonnegative_seed, Hseed.
  - apply (sum_clamped_cases vs 0). right. reflexivity.
Qed.

Lemma ltb_nan_r (p x : float) : Prim2SF x = S754_nan -> (p <? x) = false.
Proof.
  intros E. rewrite FloatAxioms.ltb_spec, E. unfold SFltb.
  destruct (Prim2SF p); reflexivity.
Qed.

Lemma ltb_zero_r (p x : float) (s : bool) :
  Prim2SF x = S754_zero s -> (p <? x) = (p <? 0).
Proof.
  intros E. rewrite !FloatAxioms.ltb_spec, E.
  change (Prim2SF 0) with (S754_zero false).
  destruct (Prim2SF p) as [[]|[]| |[] ? ?]; reflexivity.
Qed.

Lemma positive_ltb_0 (x : float) : sf_positive (Prim2SF x) = true -> (0 <? x) = true.
Proof.
  rewrite FloatAxioms.ltb_spec. change (Prim2SF 0) with (S754_zero false).
  unfold SFltb. destruct (Prim2SF x) as [[]|[]| |[] ? ?]; simpl; congruence.
Qed.

(** While the position is not below the running sum, the loop can only
    stop at a variant whose clamped weight is positive. *)
Lemma select_loop_positive_weight (p c : float) (vs : list PromptVariant)
    (v : PromptVariant) :
  (p <? c) = false ->
  select_loop p c vs (List.map effective_weight vs) = Some v ->
  v ∈ vs /\ (0 <? effective_weight v) = true.
Proof.
  revert c. induction vs as [|v0 vs IH]; intros c Hc H; [discriminate|].
  cbn [List.map select_loop] in H.
  destruct (p <? c + effective_weight v0) eqn:E.
  - injection H as <-. split; [left|].
    destruct (max_0_cases (default 1 (v_weight v0))) as [Hw|Hw];
      fold (effective_weight v0) in Hw.
    + rewrite (ltb_nan_r _ _ (add_nan_r c _ Hw)) in E. discriminate.
    + destruct (Prim2SF (effective_weight v0)) as [s|s| |s m e] eqn:Hv;
        try discriminate.
      * rewrite (ltb_add_zero p c _ s Hv) in E. congruence.
      * apply positive_ltb_0. rewrite Hv. exact Hw.
      * apply positive_ltb_0. rewrite Hv. exact Hw.
  - destruct (IH _ E H) as [Hin Hpos]. split; [right; exact Hin|exact Hpos].
Qed.

(** When the loop runs off the end, the position is not below the total. *)
Lemma select_loop_none (p c : float) (vs : list PromptVariant) :
  (p <? c) = false ->
  select_loop p c vs (List.map effective_weight vs) = None ->
  (p <? fold_left PrimFloat.add (List.map effective_weight vs) c) = false.
Proof.
  revert c. induction vs as [|v0 vs IH]; intros c Hc H; [exact Hc|].
  cbn [List.map select_loop fold_left] in H |- *.
  destruct (p <? c + effective_weight v0) eqn:E; [discriminate|].
  apply IH; assumption.
Qed.

(** X1: for a seed that is not negative, whenever the position lies below
    the total weight (the floating-point fallback is not taken),
    [selectVariant] returns a variant of the list whose clamped weight is
    strictly positive: a variant of weight 0 (or of negative weight) is
    never selected. *)
Theorem selected_weight_is_positive (variants : list PromptVariant) (seed : Z) :
  (0 <= seed)%Z ->
  (position seed (sum_weights (List.map effective_weight variants))
   <? sum_weights (List.map effective_weight variants)) = true ->
  exists v,
    selectVariant variants seed = Ok v
    /\ v ∈ variants
    /\ (0 <? effective_weight v) = true.
Proof.
  intros Hseed Hlt.
  pose proof (position_not_negative variants seed Hseed) as Hp0.
  set (T := sum_weights (List.map effective_weight variants)) in *.
  assert (HT : (T <=? 0) = false).
  { pose proof (sum_clamped_cases variants 0 (or_intror eq_refl)) as Hcases.
    cbv zeta in Hcases.
    change (fold_left PrimFloat.add (List.map effective_weight variants) 0)
      with T in Hcases.
    destruct Hcases as [Hn|Hz].
    - rewrite (ltb_nan_r _ _ Hn) in Hlt. discriminate.
    - destruct (Prim2SF T) as [s|s| |s m e] eqn:HT; try discriminate.
      + rewrite (ltb_zero_r _ _ s HT) in Hlt. congruence.
      + apply leb_0_positive. rewrite HT. exact Hz.
      + apply leb_0_positive. rewrite HT. exact Hz. }
  destruct variants as [|first rest].
  - vm_compute in HT. discriminate.
  - unfold selectVariant. fold T. rewrite HT.
    destruct (select_loop _ _ _ _) as [v|] eqn:E.
    + destruct (select_loop_positive_weight _ _ _ _ Hp0 E) as [Hin Hpos].
      exists v. auto.
    + apply (select_loop_none _ _ _ Hp0) in E.
      change (fold_left PrimFloat.add (List.map effective_weight (first :: rest)) 0)
        with T in E.
      congruence.
Qed.

Lemma selected_weight_is_positive_witness :
  exists v,
    selectVariant [weighted "never" 0; weighted "always" 1] 123456 = Ok v
    /\ v ∈ [weighted "never" 0; weighted "always" 1]
    /\ (0 <? effective_weight v) = true.
Proof.
  apply selected_weight_is_positive.
  - lia.
  - vm_compute. reflexivity.
Defined.

(** A weight that is zero or negative is clamped to [+0]. *)
Lemma effective_weight_nonpositive (v : PromptVariant) (w : float) :
  v_weight v = Some w -> (w <=? 0) = true -> effective_weight v = 0.
Proof.
  intros Hv Hw. unfold effective_weight. rewrite Hv.
  change (default 1 (Some w)) with w.
  rewrite max_0_l. unfold PrimFloat.is_nan.
  rewrite FloatAxioms.eqb_spec, FloatAxioms.ltb_spec.
  rewrite FloatAxioms.leb_spec in Hw. revert Hw.
  change (Prim2SF 0) with (S754_zero false). unfold SFleb, SFeqb, SFltb.
  destruct (Prim2SF w) as [[]|[]| |[] m e]; simpl; try congruence; intros _.
  rewrite Z.compare_refl, Pos.compare_cont_refl. reflexivity.
Qed.

Lemma sum_zero_weights (vs : list PromptVariant) :
  Forall (fun v => effective_weight v = 0) vs ->
  sum_weights (List.map effective_weight vs) = 0.
Proof.
  unfold sum_weights. induction 1 as [|v vs Hv _ IH]; [reflexivity|].
  cbn [List.map fold_left]. rewrite Hv. exact IH.
Qed.

(** X2: when every variant carries a weight that is zero or negative,
    [selectVariant] returns the first variant of the list for every seed. *)
Theorem all_weights_nonpositive_selects_first (first : PromptVariant)
    (rest : list PromptVariant) (seed : Z) :
  Forall (fun v => exists w, v_weight v = Some w /\ (w <=? 0) = true) (first :: rest) ->
  selectVariant (first :: rest) seed = Ok first.
Proof.
  intros H. unfold selectVariant. rewrite sum_zero_weights; [reflexivity|].
  eapply Forall_impl; [exact H|].
  intros v (w & Hv & Hw). eapply effective_weight_nonpositive; eassumption.
Qed.

Lemma all_weights_nonpositive_selects_first_witness :
  selectVariant [weighted "first" 0; weighted "second" (-2)] 424242
  = Ok (weighted "first" 0).
Proof.
  apply all_weights_nonpositive_selects_first.
  repeat constructor; eexists; (split; [reflexivity|vm_compute; reflexivity]).
Defined.

(** X3: [selectVariant] reads a seed that is not negative only through its
    remainder modulo 1,000,000: adding a multiple of 1,000,000 to the seed
    does not change the result. *)
Theorem seed_read_modulo_million (variants : list PromptVariant) (seed k : Z) :
  (0 <= seed)%Z -> (0 <= k)%Z ->
  selectVariant variants (seed + k * 1000000) = selectVariant variants seed.
Proof.
  intros Hseed Hk. unfold selectVariant, position, Number.rem.
  destruct (Z.ltb_spec (seed + k * 1000000) 0) as [|_]; [lia|].
  destruct (Z.ltb_spec seed 0) as [|_]; [lia|].
  rewrite !Z.rem_mod_nonneg by lia. rewrite Z.mod_add by lia. reflexivity.
Qed.

Lemma seed_read_modulo_million_witness :
  selectVariant heavy_light_pool (950000 + 4294 * 1000000)
  = selectVariant heavy_light_pool 950000.
Proof. apply seed_read_modulo_million; lia. Defined.

End SelectFacts.

(* ===================================================================== *)
(** * AssignmentStore: assignments stay *)
(* ===================================================================== *)

(** What one lookup does to the whole state. *)
Lemma getVariantForSession_run (k : jsstring) (e : AbTestExperiment)
    (st : PluginState) :
  getVariantForSession k e st =
  match assignmentCache st !! assignmentKey k (e_id e) with
  | Some v => (Ok v, st)
  | None =>
      match assignVariant k (e_id e) (e_variants e) with
      | Ok v =>
          (Ok v,
           add_lines
             {| assignmentCache := <[assignmentKey k (e_id e) := v]> (assignmentCache st);
                logger := logger st; hooks := hooks st;
                logger_has_debug := logger_has_debug st |}
             (if logger_has_debug st
              then [(LDebug, utf16 "prompt-ab-test: assigned session=" ++ k
                             ++ utf16 " experiment=" ++ e_id e
                             ++ utf16 " " ++ [8594] ++ utf16 " variant=" ++ v_id v)]
              else []))
      | Throw msg => (Throw msg, st)
      end
  end.
Proof.
  unfold getVariantForSession. rewrite bind_run. unfold cache_get.
  destruct (assignmentCache st !! _) as [v|]; [reflexivity|].
  rewrite bind_run. unfold lift.
  destruct (assignVariant k (e_id e) (e_variants e)); [|reflexivity].
  rewrite !bind_run. unfold cache_set, log_debug. cbn [logger_has_debug].
  destruct (logger_has_debug st); [reflexivity|].
  unfold add_lines. cbn [assignmentCache logger hooks logger_has_debug].
  rewrite app_nil_r. reflexivity.
Qed.

Lemma only_assigns_refl (st : PluginState) : only_assigns st st.
Proof.
  split; [auto|]. split; [reflexivity|]. split; [reflexivity|].
  exists []. rewrite app_nil_r. split; [reflexivity|]. split; [constructor|].
  destruct (logger_has_debug st); [simpl; lia|reflexivity].
Qed.

Lemma only_assigns_trans (st1 st2 st3 : PluginState) :
  only_assigns st1 st2 -> only_assigns st2 st3 -> only_assigns st1 st3.
Proof.
  intros (Hc1 & Hh1 & Hg1 & l1 & Hl1 & Hd1 & Hs1)
         (Hc2 & Hh2 & Hg2 & l2 & Hl2 & Hd2 & Hs2).
  split; [auto|]. split; [congruence|]. split; [congruence|].
  exists (l1 ++ l2). split; [rewrite Hl2, Hl1, app_assoc; reflexivity|].
  split; [apply Forall_app; auto|]. rewrite Hg1 in Hs2.
  destruct (logger_has_debug st1).
  - rewrite length_app. lia.
  - rewrite Hs1, Hs2. reflexivity.
Qed.

Lemma getVariantForSession_only_assigns (k : jsstring) (e : AbTestExperiment)
    (st : PluginState) :
  only_assigns st (snd (getVariantForSession k e st)).
Proof.
  rewrite getVariantForSession_run.
  destruct (assignmentCache st !! assignmentKey k (e_id e)) eqn:Hl;
    [apply only_assigns_refl|].
  destruct (assignVariant k (e_id e) (e_variants e)) as [v|msg];
    [|apply only_assigns_refl].
  cbn [snd]. split; [|split; [reflexivity|split; [reflexivity|]]].
  - intros key v' Hkey. cbn [assignmentCache add_lines].
    rewrite lookup_insert_ne; [exact Hkey|]. intros <-. congruence.
  - eexists. split; [reflexivity|].
    cbn [assignmentCache add_lines].
    destruct (logger_has_debug st); (split; [repeat constructor|]); [|reflexivity].
    cbn [length]. rewrite map_size_insert_None by exact Hl. lia.
Qed.

Lemma prompt_build_loop_only_assigns (k : jsstring) (agent : option jsstring)
    (exps : list AbTestExperiment) (acc : option jsstring * list jsstring)
    (st : PluginState) :
  only_assigns st (snd (prompt_build_loop k agent exps acc st)).
Proof.
  revert acc st. induction exps as [|e exps IH]; intros acc st; simpl.
  - apply only_assigns_refl.
  - destruct (filtered_out agent e); [apply IH|].
    rewrite bind_run.
    pose proof (getVariantForSession_only_assigns k e st) as H1.
    destruct (getVariantForSession k e st) as [[v|msg] st1]; cbn [snd] in H1 |- *.
    + eapply only_assigns_trans; [exact H1|apply IH].
    + exact H1.
Qed.

Lemma before_prompt_build_state (exps : list AbTestExperiment) (ctx : HookContext)
    (st : PluginState) :
  snd (before_prompt_build exps ctx st)
  = snd (prompt_build_loop (prompt_session_key ctx) (agentId ctx) exps (None, []) st).
Proof.
  unfold before_prompt_build. rewrite prompt_session_key_default, bind_run.
  destruct (prompt_build_loop _ _ exps _ st) as [[[sp parts]|msg] st1]; [|reflexivity].
  destruct sp, parts; reflexivity.
Qed.

(** X4: a prompt build keeps every entry the assignment cache already
    holds (none is removed or overwritten), registers no hook, and logs
    nothing but debug lines: exactly one for each entry it adds when the
    logger has the optional [debug] method, and none at all when it has
    not. *)
Theorem before_prompt_build_only_assigns (exps : list AbTestExperiment)
    (ctx : HookContext) (st : PluginState) :
  let st' := snd (before_prompt_build exps ctx st) in
  (forall key v, assignmentCache st !! key = Some v ->
                 assignmentCache st' !! key = Some v)
  /\ hooks st' = hooks st
  /\ logger_has_debug st' = logger_has_debug st
  /\ exists lines,
       logger st' = logger st ++ lines
       /\ Forall (fun line => fst line = LDebug) lines
       /\ if logger_has_debug st
          then size (assignmentCache st')
               = (size (assignmentCache st) + length lines)%nat
          else lines = [].
Proof.
  cbv zeta. rewrite before_prompt_build_state. apply prompt_build_loop_only_assigns.
Qed.

Lemma getVariantForSession_hit (k : jsstring) (e : AbTestExperiment)
    (st : PluginState) (v : PromptVariant) :
  assignmentCache st !! assignmentKey k (e_id e) = Some v ->
  getVariantForSession k e st = (Ok v, st).
Proof. intros H. rewrite getVariantForSession_run, H. reflexivity. Qed.

Lemma getVariantForSession_stores (k : jsstring) (e : AbTestExperiment)
    (st st1 : PluginState) (v : PromptVariant) :
  getVariantForSession k e st = (Ok v, st1) ->
  assignmentCache st1 !! assignmentKey k (e_id e) = Some v.
Proof.
  rewrite getVariantForSession_run.
  destruct (assignmentCache st !! assignmentKey k (e_id e)) as [v'|] eqn:Hl.
  - intros [= <- <-]. exact Hl.
  - destruct (assignVariant k (e_id e) (e_variants e)) as [v'|msg]; [|discriminate].
    intros [= <- <-]. cbn [assignmentCache add_lines]. apply lookup_insert_eq.
Qed.

Lemma getVariantForSession_throws (k : jsstring) (e : AbTestExperiment)
    (st st1 : PluginState) (msg : jsstring) :
  getVariantForSession k e st = (Throw msg, st1) -> st1 = st.
Proof.
  rewrite getVariantForSession_run.
  destruct (assignmentCache st !! _); [discriminate|].
  destruct (assignVariant _ _ _); [discriminate|]. intros [= _ <-]. reflexivity.
Qed.

(** X5: once a lookup has returned a variant for a session and an
    experiment, every later lookup for them returns that same variant and
    leaves the state alone, in every state whose cache still holds the
    entries of the state the first lookup left. *)
Theorem assignment_is_sticky (k : jsstring) (e : AbTestExperiment)
    (st st' : PluginState) (v : PromptVariant) :
  fst (getVariantForSession k e st) = Ok v ->
  (forall key x, assignmentCache (snd (getVariantForSession k e st)) !! key = Some x ->
                 assignmentCache st' !! key = Some x) ->
  getVariantForSession k e st' = (Ok v, st').
Proof.
  intros Hv Hlater. apply getVariantForSession_hit, Hlater.
  destruct (getVariantForSession k e st) as [r st1] eqn:E. cbn [fst snd] in *.
  subst r. eapply getVariantForSession_stores, E.
Qed.

Lemma assignment_is_sticky_witness :
  let tone := experiment "tone" [weighted "control" 1; weighted "variant-a" 1] in
  let other := experiment "brevity" [weighted "brief" 1] in
  let st1 := snd (getVariantForSession (utf16 "sess-1") tone initial_state) in
  let st2 := snd (before_prompt_build [tone; other] (session "sess-2") st1) in
  getVariantForSession (utf16 "sess-1") tone st2 = (Ok (weighted "control" 1), st2).
Proof.
  cbv zeta.
  apply (assignment_is_sticky _ _ initial_state).
  - vm_compute. reflexivity.
  - rewrite before_prompt_build_state. apply prompt_build_loop_only_assigns.
Defined.

Lemma prompt_build_loop_again (k : jsstring) (agent : option jsstring)
    (exps : list AbTestExperiment) (acc : option jsstring * list jsstring)
    (st : PluginState) :
  prompt_build_loop k agent exps acc (snd (prompt_build_loop k agent exps acc st))
  = prompt_build_loop k agent exps acc st.
Proof.
  revert acc st. induction exps as [|e exps IH]; intros acc st; simpl; [reflexivity|].
  destruct (filtered_out agent e); [apply IH|].
  rewrite (bind_run _ _ st).
  destruct (getVariantForSession k e st) as [[v|msg] st1] eqn:E; cbn [snd].
  - rewrite bind_run.
    rewrite (getVariantForSession_hit k e _ v).
    + apply IH.
    + apply prompt_build_loop_only_assigns.
      eapply getVariantForSession_stores, E.
  - apply getVariantForSession_throws in E as E'. subst st1.
    rewrite bind_run, E. reflexivity.
Qed.

(** X6: a prompt build is idempotent: run again with the same context in
    the state it left, the handler returns the same result (the same
    overlay, [undefined], or the same error) and changes nothing, not even
    the log. *)
Theorem before_prompt_build_again (exps : list AbTestExperiment)
    (ctx : HookContext) (st : PluginState) :
  before_prompt_build exps ctx (snd (before_prompt_build exps ctx st))
  = before_prompt_build exps ctx st.
Proof.
  rewrite before_prompt_build_state. unfold before_prompt_build.
  rewrite prompt_session_key_default, !bind_run, prompt_build_loop_again.
  reflexivity.
Qed.

Lemma prompt_build_loop_assigned (k : jsstring) (agent : option jsstring)
    (exps : list AbTestExperiment) (acc r : option jsstring * list jsstring)
    (st st1 : PluginState) (e : AbTestExperiment) :
  prompt_build_loop k agent exps acc st = (Ok r, st1) ->
  e ∈ exps -> filtered_out agent e = false ->
  is_Some (assignmentCache st1 !! assignmentKey k (e_id e)).
Proof.
  revert acc st. induction exps as [|x exps IH]; intros acc st Hrun He Hf;
    [inversion He|].
  simpl in Hrun.
  destruct (filtered_out agent x) eqn:Hx.
  - apply elem_of_cons in He as [->|He]; [congruence|]. eapply IH; eassumption.
  - rewrite bind_run in Hrun.
    destruct (getVariantForSession k x st) as [[v|msg] sta] eqn:E; [|discriminate].
    apply elem_of_cons in He as [->|He]; [|eapply IH; eassumption].
    exists v.
    pose proof (prompt_build_loop_only_assigns k agent exps (merge_variant v acc) sta)
      as (Hkeep & _).
    rewrite Hrun in Hkeep. apply Hkeep. eapply getVariantForSession_stores, E.
Qed.

(** X7: after a prompt build that returns, the cache holds an assignment
    for the request's session key and every active experiment that the
    agent filter lets through. *)
Theorem before_prompt_build_assigns_all (exps : list AbTestExperiment)
    (ctx : HookContext) (st : PluginState) (e : AbTestExperiment) :
  (exists r, fst (before_prompt_build exps ctx st) = Ok r) ->
  e ∈ exps ->
  filtered_out (agentId ctx) e = false ->
  is_Some (assignmentCache (snd (before_prompt_build exps ctx st))
             !! assignmentKey (prompt_session_key ctx) (e_id e)).
Proof.
  intros [r Hr] He Hf. rewrite before_prompt_build_state.
  unfold before_prompt_build in Hr.
  rewrite prompt_session_key_default, bind_run in Hr.
  destruct (prompt_build_loop _ _ exps _ st) as [[acc|msg] st1] eqn:E;
    [|discriminate].
  cbn [snd]. eapply prompt_build_loop_assigned; eassumption.
Qed.

Lemma before_prompt_build_assigns_all_witness :
  let tone := experiment "tone" [weighted "control" 1; weighted "variant-a" 1] in
  is_Some (assignmentCache (snd (before_prompt_build [tone] (session "sess-1")
                                   initial_state))
             !! assignmentKey (utf16 "sess-1") (utf16 "tone")).
Proof.
  cbv zeta.
  apply (before_prompt_build_assigns_all
           [experiment "tone" [weighted "control" 1; weighted "variant-a" 1]]
           (session "sess-1") initial_state
           (experiment "tone" [weighted "control" 1; weighted "variant-a" 1])).
  - eexists. vm_compute. reflexivity.
  - left.
  - reflexivity.
Defined.

(* ===================================================================== *)
(** * AssignmentReporter: what the session-end line lists *)
(* ===================================================================== *)

Lemma collect_assignments_run (k : jsstring) (exps : list AbTestExperiment)
    (st : PluginState) :
  collect_assignments k exps st = (Ok (report_entries k exps (assignmentCache st)), st).
Proof.
  induction exps as [|e exps IH]; [reflexivity|].
  cbn [collect_assignments]. rewrite bind_run. unfold cache_get.
  rewrite bind_run, IH. unfold report_entries. rewrite omap_cons_unfold.
  destruct (assignmentCache st !! _); reflexivity.
Qed.

(** X8: the session-end handler never throws and logs at most one line.
    It reports under [ctx.sessionKey ?? ctx.sessionId]; when that is absent
    or the empty string (an empty [sessionKey] hides a [sessionId]) or when
    no active experiment has an assignment for the session, it changes
    nothing; otherwise it appends the one informational line
    [prompt-ab-test: assignments session=<key> [<id>=<variant>, ...]] with
    an entry for each active experiment that has an assignment, in order. *)
Theorem agent_end_report (exps : list AbTestExperiment) (ctx : HookContext)
    (st : PluginState) :
  agent_end exps ctx st =
  (Ok tt,
   match report_session_key ctx with
   | None => st
   | Some k =>
       match report_entries k exps (assignmentCache st) with
       | [] => st
       | entries =>
           add_lines st
             [(LInfo, utf16 "prompt-ab-test: assignments session=" ++ k
                      ++ utf16 " [" ++ join (utf16 ", ") entries ++ utf16 "]")]
       end
   end).
Proof.
  unfold agent_end, report_session_key.
  destruct (sessionKey ctx) as [k|]; [|destruct (sessionId ctx) as [k|]];
    try reflexivity;
    (destruct (truthy k); cbn [negb]; [|reflexivity];
     rewrite bind_run, collect_assignments_run;
     destruct (report_entries k exps (assignmentCache st)); reflexivity).
Qed.


Lemma getVariantForSession_adds_only (k : jsstring) (e : AbTestExperiment)
    (st : PluginState) (key : jsstring) (v : PromptVariant) :
  assignmentCache (snd (getVariantForSession k e st)) !! key = Some v ->
  assignmentCache st !! key = Some v \/ key = assignmentKey k (e_id e).
Proof.
  rewrite getVariantForSession_run.
  destruct (assignmentCache st !! assignmentKey k (e_id e)); [auto|].
  destruct (assignVariant k (e_id e) (e_variants e)) as [v'|msg]; [|auto].
  cbn [snd assignmentCache add_lines].
  destruct (decide (assignmentKey k (e_id e) = key)) as [<-|Hne]; [auto|].
  rewrite lookup_insert_ne by exact Hne. auto.
Qed.

Lemma prompt_build_loop_adds_only (k : jsstring) (agent : option jsstring)
    (exps : list AbTestExperiment) (acc : option jsstring * list jsstring)
    (st : PluginState) (key : jsstring) (v : PromptVariant) :
  assignmentCache (snd (prompt_build_loop k agent exps acc st)) !! key = Some v ->
  assignmentCache st !! key = Some v
  \/ exists e, e ∈ exps /\ filtered_out agent e = false
               /\ key = assignmentKey k (e_id e).
Proof.
  revert acc st. induction exps as [|e exps IH]; intros acc st H; simpl in H;
    [auto|].
  destruct (filtered_out agent e) eqn:Hf.
  - destruct (IH _ _ H) as [?|(e' & ? & ? & ?)]; [auto|].
    right. exists e'. split; [right|]; auto.
  - rewrite bind_run in H.
    pose proof (getVariantForSession_adds_only k e st key v) as H1.
    destruct (getVariantForSession k e st) as [[x|msg] st1]; cbn [snd] in H, H1.
    + destruct (IH _ _ H) as [Hst1|(e' & ? & ? & ?)].
      * destruct (H1 Hst1) as [?|?]; [auto|].
        right. exists e. split; [left|]; auto.
      * right. exists e'. split; [right|]; auto.
    + destruct (H1 H) as [?|?]; [auto|].
      right. exists e. split; [left|]; auto.
Qed.

(** X9: a prompt build adds cache entries only under the keys of its own
    session key and of the active experiments that pass the agent filter:
    every other entry of the resulting cache was there before. *)
Theorem before_prompt_build_adds_only (exps : list AbTestExperiment)
    (ctx : HookContext) (st : PluginState) (key : jsstring) (v : PromptVariant) :
  assignmentCache (snd (before_prompt_build exps ctx st)) !! key = Some v ->
  assignmentCache st !! key = Some v
  \/ exists e, e ∈ exps /\ filtered_out (agentId ctx) e = false
               /\ key = assignmentKey (prompt_session_key ctx) (e_id e).
Proof.
  rewrite before_prompt_build_state. apply prompt_build_loop_adds_only.
Qed.

Lemma before_prompt_build_adds_only_witness :
  let tone := experiment "tone" [weighted "control" 1; weighted "variant-a" 1] in
  assignmentCache initial_state !! assignmentKey (utf16 "sess-1") (utf16 "tone")
  = Some (weighted "control" 1)
  \/ exists e, e ∈ [tone] /\ filtered_out None e = false
               /\ assignmentKey (utf16 "sess-1") (utf16 "tone")
                  = assignmentKey (utf16 "sess-1") (e_id e).
Proof.
  cbv zeta.
  apply (before_prompt_build_adds_only
           [experiment "tone" [weighted "control" 1; weighted "variant-a" 1]]
           (session "sess-1") initial_state).
  vm_compute. reflexivity.
Defined.





(* ===================================================================== *)
(** * ExperimentRegistry: warnings, hooks and the load summary *)
(* ===================================================================== *)

Lemma validate_warns (exp : option RawExperiment) (st : PluginState) :
  exists warnings,
    validate exp st
    = (Ok (if well_formed exp then as_experiment exp else None), add_lines st warnings)
    /\ length warnings = (if well_formed exp then 0 else 1)%nat.
Proof.
  unfold validate, well_formed, as_experiment.
  destruct exp as [raw|]; [|eexists; split; reflexivity].
  destruct (raw_id raw) as [id|]; [|eexists; split; reflexivity].
  destruct (raw_variants raw) as [[|v vs]|];
    cbn [e_id e_variants truthy_list];
    destruct (truthy (trim id)); cbn [negb andb];
    try (eexists; split; reflexivity).
  exists []. rewrite add_lines_nil. split; reflexivity.
Qed.

Lemma filter_valid_warns (raw : list (option RawExperiment)) (st : PluginState) :
  exists valid warnings,
    filter_valid raw st = (Ok valid, add_lines st warnings)
    /\ length warnings = length (List.filter (fun exp => negb (well_formed exp)) raw).
Proof.
  revert st. induction raw as [|exp raw IH]; intros st.
  - exists [], []. rewrite add_lines_nil. split; reflexivity.
  - cbn [filter_valid List.filter]. rewrite bind_run.
    destruct (validate_warns exp st) as (w1 & -> & Hw1).
    rewrite bind_run.
    destruct (IH (add_lines st w1)) as (valid & w2 & -> & Hw2).
    rewrite add_lines_app. eexists _, (w1 ++ w2). split; [reflexivity|].
    rewrite length_app, Hw1, Hw2.
    destruct (well_formed exp); reflexivity.
Qed.

(** X11: [register] never throws and leaves the cache alone.  It logs one
    warning for each raw entry that is not well formed (an experiment that
    is only disabled is dropped without one), then one informational line;
    and when at least one experiment is active, that line is the load
    summary with the count and the ids, and exactly the three hooks
    [before_prompt_build], [agent_end], [gateway_start] are registered, in
    this order. *)
Theorem register_effects (pluginConfig : option PromptAbTestConfig)
    (st : PluginState) :
  let raw := raw_entries pluginConfig in
  let active := omap kept_non_blank raw in
  exists warnings info,
    register pluginConfig st
    = (Ok active,
       {| assignmentCache := assignmentCache st;
          logger := logger st ++ warnings ++ [(LInfo, info)];
          hooks := hooks st ++ match active with
                               | [] => []
                               | _ => [before_prompt_build_hook; agent_end_hook;
                                       gateway_start_hook]
                               end;
          logger_has_debug := logger_has_debug st |})
    /\ Forall (fun line => fst line = LWarn) warnings
    /\ length warnings = length (List.filter (fun exp => negb (well_formed exp)) raw)
    /\ (active <> [] ->
        info = utf16 "prompt-ab-test: loaded " ++ length_to_string (length active)
               ++ utf16 " active experiment(s): "
               ++ join (utf16 ", ") (List.map e_id active)).
Proof.
  cbv zeta. unfold register.
  replace (default [] (experiments (default {| experiments := None |} pluginConfig)))
    with (raw_entries pluginConfig) by (destruct pluginConfig; reflexivity).
  rewrite bind_run.
  destruct (filter_valid_spec (raw_entries pluginConfig) st)
    as (valid & warnings & E & Hw & Hk).
  destruct (filter_valid_warns (raw_entries pluginConfig) st)
    as (valid' & warnings' & E' & Hlen).
  rewrite E in E'. injection E' as <- Hlog.
  apply app_inv_head in Hlog. subst warnings'.
  rewrite E, Hk.
  exists warnings.
  destruct (omap kept_non_blank (raw_entries pluginConfig)) as [|e active].
  - eexists. split; [|split; [exact Hw|split; [exact Hlen|congruence]]].
    rewrite bind_run. unfold log, ret, add_lines. cbn. rewrite app_nil_r, <- app_assoc.
    reflexivity.
  - eexists. split; [|split; [exact Hw|split; [exact Hlen|reflexivity]]].
    rewrite !bind_run. unfold log, on, ret, add_lines. cbn.
    rewrite <- !app_assoc. reflexivity.
Qed.

(* ===================================================================== *)
(** * Startup summary *)
(* ===================================================================== *)

Lemma starts_with_app (sub rest : jsstring) : starts_with sub (sub ++ rest) = true.
Proof.
  induction sub as [|c sub IH]; [destruct rest; reflexivity|].
  cbn [app starts_with]. rewrite Z.eqb_refl. exact IH.
Qed.

Lemma includes_app (sub before rest : jsstring) :
  includes sub (before ++ sub ++ rest) = true.
Proof.
  induction before as [|c before IH].
  - cbn [app]. destruct (sub ++ rest) eqn:E; cbn [includes]; rewrite <- E;
      rewrite starts_with_app; reflexivity.
  - cbn [app includes]. rewrite IH. apply orb_true_r.
Qed.

(** X12: whatever the rendering of numbers, the startup handler never
    throws, leaves the cache and the hooks alone, and appends exactly one
    informational line per active experiment, in the experiments' order;
    the line of an experiment contains its id, and its description or the
    text "no description". *)
Theorem gateway_start_summary (numberToString : float -> jsstring) :
  (forall exps st,
      gateway_start numberToString exps st
      = (Ok tt,
         add_lines st
           (List.map (fun e => (LInfo, experiment_summary numberToString e)) exps)))
  /\ (forall e,
        includes (e_id e) (experiment_summary numberToString e) = true
        /\ includes (default (utf16 "no description") (e_description e))
             (experiment_summary numberToString e) = true).
Proof.
  split.
  - induction exps as [|e exps IH]; intros st.
    + cbn. rewrite add_lines_nil. reflexivity.
    + cbn [gateway_start List.map]. rewrite bind_run. unfold log.
      rewrite IH, add_lines_app. reflexivity.
  - intros e. unfold experiment_summary. split.
    + rewrite (app_assoc (utf16 "prompt-ab-test: experiment ")).
      apply includes_app.
    + rewrite !(app_assoc _ _ (default _ _ ++ _)). apply includes_app.
Qed.

(* ===================================================================== *)
(** * [agents/prompt-loader.ts]: the prompt cache *)
(* ===================================================================== *)

Lemma trimStart_head (s t : jsstring) (c : Z) :
  trimStart s = c :: t -> is_js_whitespace c = false.
Proof.
  induction s as [|a s IH]; [discriminate|]. cbn [trimStart].
  destruct (is_js_whitespace a) eqn:E; [exact IH|].
  intros [= <- _]. exact E.
Qed.

Lemma trimEnd_no_trailing_space (s : jsstring) : no_trailing_space (trimEnd s).
Proof.
  intros before c H. unfold trimEnd in H.
  apply (f_equal (@rev Z)) in H. rewrite rev_involutive, rev_app_distr in H.
  exact (trimStart_head _ _ _ H).
Qed.

Section LoaderFacts.

Variable path_join : list jsstring -> jsstring.

Lemma getPromptsDir_cache (host : PromptLoader.Host) (st : PromptLoader.LoaderState) :
  PromptLoader.promptCache (snd (PromptLoader.getPromptsDir path_join host st))
  = PromptLoader.promptCache st.
Proof.
  unfold PromptLoader.getPromptsDir.
  destruct (PromptLoader.cachedPromptsDir st) as [d|]; [destruct (truthy d)|];
    try reflexivity;
    destruct (PromptLoader.resolvePromptsDir path_join host); reflexivity.
Qed.

Lemma loadPrompt_promptCache (name : jsstring) (host : PromptLoader.Host)
    (st : PromptLoader.LoaderState) :
  PromptLoader.promptCache (snd (PromptLoader.loadPrompt path_join name host st))
  = match fst (PromptLoader.loadPrompt path_join name host st) with
    | Ok content => <[name := content]> (PromptLoader.promptCache st)
    | Throw _ => PromptLoader.promptCache st
    end.
Proof.
  unfold PromptLoader.loadPrompt.
  destruct (PromptLoader.promptCache st !! name) as [cached|] eqn:Hl.
  - cbn [fst snd]. symmetry. apply insert_id, Hl.
  - pose proof (getPromptsDir_cache host st) as Hc.
    destruct (PromptLoader.getPromptsDir path_join host st) as [[dir|msg] st1];
      cbn [snd] in Hc; [|exact Hc].
    destruct (PromptLoader.readFileSync host _); cbn [fst snd PromptLoader.promptCache];
      rewrite Hc; reflexivity.
Qed.

(** X13: [loadPrompt] changes the prompt cache in one way only: a load
    that returns a text leaves that text cached under the name (a cache hit
    leaves the cache as it is), every other entry is kept, and a load that
    throws caches nothing. *)
Theorem loadPrompt_cache_effect (name : jsstring) (host : PromptLoader.Host)
    (st : PromptLoader.LoaderState) :
  PromptLoader.promptCache (snd (PromptLoader.loadPrompt path_join name host st))
  = match fst (PromptLoader.loadPrompt path_join name host st) with
    | Ok content => <[name := content]> (PromptLoader.promptCache st)
    | Throw _ => PromptLoader.promptCache st
    end.
Proof. apply loadPrompt_promptCache. Qed.

(** X14: the cache is authoritative: once [loadPrompt] has returned a text
    for a name, every later load of that name returns the same text and
    changes nothing, whatever the file system and the package root have
    become. *)
Theorem loaded_prompt_stays (name content : jsstring)
    (host host' : PromptLoader.Host) (st : PromptLoader.LoaderState) :
  fst (PromptLoader.loadPrompt path_join name host st) = Ok content ->
  PromptLoader.loadPrompt path_join name host'
    (snd (PromptLoader.loadPrompt path_join name host st))
  = (Ok content, snd (PromptLoader.loadPrompt path_join name host st)).
Proof.
  intros H.
  assert (Hl : PromptLoader.promptCache
                 (snd (PromptLoader.loadPrompt path_join name host st)) !! name
               = Some content).
  { rewrite loadPrompt_promptCache, H. apply lookup_insert_eq. }
  unfold PromptLoader.loadPrompt at 1. rewrite Hl. reflexivity.
Qed.

(** X15: loaded prompts never end with white space: if no cached text
    does, then neither does the text a load returns, nor any text cached
    afterwards. *)
Theorem loaded_prompt_is_trimmed (name : jsstring) (host : PromptLoader.Host)
    (st : PromptLoader.LoaderState) :
  (forall n x, PromptLoader.promptCache st !! n = Some x -> no_trailing_space x) ->
  (forall content,
      fst (PromptLoader.loadPrompt path_join name host st) = Ok content ->
      no_trailing_space content)
  /\ (forall n x,
        PromptLoader.promptCache (snd (PromptLoader.loadPrompt path_join name host st))
          !! n = Some x ->
        no_trailing_space x).
Proof.
  intros Hinv.
  assert (Hret : forall content,
             fst (PromptLoader.loadPrompt path_join name host st) = Ok content ->
             no_trailing_space content).
  { unfold PromptLoader.loadPrompt.
    destruct (PromptLoader.promptCache st !! name) as [cached|] eqn:Hl.
    - intros content [= <-]. eapply Hinv, Hl.
    - destruct (PromptLoader.getPromptsDir path_join host st) as [[dir|msg] st1];
        [|discriminate].
      destruct (PromptLoader.readFileSync host _); [|discriminate].
      intros content [= <-]. apply trimEnd_no_trailing_space. }
  split; [exact Hret|].
  intros n x. rewrite loadPrompt_promptCache.
  destruct (fst (PromptLoader.loadPrompt path_join name host st)) as [content|msg];
    [|apply Hinv].
  destruct (decide (name = n)) as [<-|Hne].
  - rewrite lookup_insert_eq. intros [= <-]. apply Hret. reflexivity.
  - rewrite lookup_insert_ne by exact Hne. apply Hinv.
Qed.

(** X16: the prompts directory is resolved once: while a non-empty
    directory is cached, a load consults neither the package root nor
    [existsSync], only [readFileSync] under the cached directory, and leaves
    the cached directory in place. *)
Theorem prompts_dir_resolved_once (name dir : jsstring)
    (host host' : PromptLoader.Host) (st : PromptLoader.LoaderState) :
  PromptLoader.cachedPromptsDir st = Some dir ->
  truthy dir = true ->
  PromptLoader.readFileSync host (path_join [dir; name ++ utf16 ".md"])
  = PromptLoader.readFileSync host' (path_join [dir; name ++ utf16 ".md"]) ->
  PromptLoader.loadPrompt path_join name host st
  = PromptLoader.loadPrompt path_join name host' st
  /\ PromptLoader.cachedPromptsDir (snd (PromptLoader.loadPrompt path_join name host st))
     = Some dir.
Proof.
  intros Hdir Htruthy Hread. unfold PromptLoader.loadPrompt, PromptLoader.getPromptsDir.
  rewrite Hdir, Htruthy, Hread.
  destruct (PromptLoader.promptCache st !! name); [auto|].
  destruct (PromptLoader.readFileSync host' _); auto.
Qed.

(** X17: [resolvePromptsDir] returns only a directory that exists: the
    candidate under a non-empty package root when it exists, otherwise the
    [prompts] directory beside the module when that exists; and it throws
    exactly when neither is usable. *)
Theorem resolvePromptsDir_exists (host : PromptLoader.Host) :
  let candidate root :=
    path_join [root; utf16 "src"; utf16 "agents"; utf16 "prompts"] in
  let fallback := path_join [PromptLoader.thisDir host; utf16 "prompts"] in
  let usable root :=
    truthy root && PromptLoader.existsSync host (candidate root) in
  match PromptLoader.resolvePromptsDir path_join host with
  | Ok dir =>
      PromptLoader.existsSync host dir = true
      /\ match PromptLoader.packageRoot host with
         | Some root => if usable root then dir = candidate root else dir = fallback
         | None => dir = fallback
         end
  | Throw _ =>
      PromptLoader.existsSync host fallback = false
      /\ match PromptLoader.packageRoot host with
         | Some root => usable root = false
         | None => True
         end
  end.
Proof.
  cbv zeta. unfold PromptLoader.resolvePromptsDir.
  destruct (PromptLoader.packageRoot host) as [root|].
  - destruct (truthy root); cbn [andb].
    + destruct (PromptLoader.existsSync host (path_join [root; _; _; _])) eqn:E1;
        [auto|].
      destruct (PromptLoader.existsSync host (path_join [_; _])) eqn:E2; auto.
    + destruct (PromptLoader.existsSync host (path_join [_; _])) eqn:E2; auto.
  - destruct (PromptLoader.existsSync host (path_join [_; _])) eqn:E2; auto.
Qed.

End LoaderFacts.

Lemma loaded_prompt_stays_witness :
  PromptLoader.loadPrompt PromptLoader.join_slash (utf16 "identity")
    PromptLoader.empty_host
    (snd (PromptLoader.loadPrompt PromptLoader.join_slash (utf16 "identity")
            (PromptLoader.host_with "identity" "You are a personal assistant.  ")
            PromptLoader.initial))
  = (Ok (utf16 "You are a personal assistant."),
     snd (PromptLoader.loadPrompt PromptLoader.join_slash (utf16 "identity")
            (PromptLoader.host_with "identity" "You are a personal assistant.  ")
            PromptLoader.initial)).
Proof.
  apply loaded_prompt_stays. vm_compute. reflexivity.
Defined.

Lemma loaded_prompt_is_trimmed_witness :
  (forall content,
      fst (PromptLoader.loadPrompt PromptLoader.join_slash (utf16 "identity")
             (PromptLoader.host_with "identity" "You are a personal assistant.  ")
             PromptLoader.initial) = Ok content ->
      no_trailing_space content)
  /\ (forall n x,
        PromptLoader.promptCache
          (snd (PromptLoader.loadPrompt PromptLoader.join_slash (utf16 "identity")
                  (PromptLoader.host_with "identity" "You are a personal assistant.  ")
                  PromptLoader.initial)) !! n = Some x ->
        no_trailing_space x).
Proof.
  apply loaded_prompt_is_trimmed.
  intros n x H. simpl in H. rewrite lookup_empty in H. discriminate.
Defined.

Lemma prompts_dir_resolved_once_witness :
  let st := snd (PromptLoader.loadPrompt PromptLoader.join_slash (utf16 "identity")
                   (PromptLoader.host_with "identity" "You are a personal assistant.")
                   PromptLoader.initial) in
  PromptLoader.loadPrompt PromptLoader.join_slash (utf16 "safety")
    PromptLoader.empty_host st
  = PromptLoader.loadPrompt PromptLoader.join_slash (utf16 "safety")
      (PromptLoader.host_with "identity" "changed") st
  /\ PromptLoader.cachedPromptsDir
       (snd (PromptLoader.loadPrompt PromptLoader.join_slash (utf16 "safety")
               PromptLoader.empty_host st))
     = Some (utf16 "/app/src/agents/prompts").
Proof.
  cbv zeta. apply prompts_dir_resolved_once.
  - vm_compute. reflexivity.
  - reflexivity.
  - vm_compute. reflexivity.
Defined.

(* ===================================================================== *)
(** * [agents/prompt-loader.ts]: placeholder substitution *)
(* ===================================================================== *)

Lemma starts_with_split (sub s : jsstring) :
  starts_with sub s = true -> s = sub ++ drop (length sub) s.
Proof.
  revert s. induction sub as [|a sub IH]; intros s H; [reflexivity|].
  destruct s as [|b s]; [discriminate|]. cbn [starts_with] in H.
  apply andb_true_iff in H as [Hab Hs]. apply Z.eqb_eq in Hab. subst b.
  cbn [length drop app]. f_equal. apply IH, Hs.
Qed.

Lemma includes_cons_false (sub : jsstring) (c : Z) (s : jsstring) :
  includes sub (c :: s) = false ->
  starts_with sub (c :: s) = false /\ includes sub s = false.
Proof. cbn [includes]. apply orb_false_iff. Qed.




Lemma get_substitution_plain (matched preceding following template : jsstring) :
  36 ∉ template ->
  get_substitution matched preceding following template = template.
Proof.
  induction template as [|c rest IH]; intros H; [reflexivity|].
  assert (Hc : (c =? 36) = false).
  { apply Z.eqb_neq. intros ->. apply H. left. }
  assert (Hrest : 36 ∉ rest) by (intros ?; apply H; now right).
  cbn [get_substitution]. destruct rest as [|d rest']; [reflexivity|].
  rewrite Hc. f_equal. apply IH, Hrest.
Qed.

Lemma replace_scan_plain (pattern value : jsstring) (s : jsstring) :
  36 ∉ value ->
  forall (whole whole' : jsstring) (skip pos pos' : nat),
    replace_scan pattern value whole skip pos s
    = replace_scan pattern value whole' O pos' (drop skip s).
Proof.
  intros Hv. induction s as [|c s IH]; intros whole whole' skip pos pos'.
  - rewrite drop_nil. destruct skip; reflexivity.
  - destruct skip as [|skip].
    + cbn [drop replace_scan].
      destruct (starts_with pattern (c :: s)).
      * rewrite !get_substitution_plain by exact Hv. f_equal.
        rewrite (IH whole whole' _ (S pos) O), (IH whole' whole' _ (S pos') O).
        reflexivity.
      * f_equal. apply IH.
    + cbn [drop replace_scan]. apply IH.
Qed.

Lemma replace_scan_first (pattern value : jsstring) (s : jsstring) :
  36 ∉ value -> (1 <= length pattern)%nat ->
  forall (whole : jsstring) (pos i : nat),
    indexOf pattern s = Some i ->
    replace_scan pattern value whole O pos s
    = take i s ++ value
      ++ replaceAll pattern value (drop (i + length pattern) s).
Proof.
  intros Hv Hlen. unfold replaceAll.
  induction s as [|c s IH]; intros whole pos i Hi.
  - cbn [indexOf] in Hi. destruct pattern; [simpl in Hlen; lia|discriminate].
  - cbn [indexOf] in Hi. cbn [replace_scan].
    destruct (starts_with pattern (c :: s)) eqn:E.
    + injection Hi as <-. cbn [take app plus].
      rewrite get_substitution_plain by exact Hv. f_equal.
      rewrite (replace_scan_plain _ _ s Hv whole
                 (drop (length pattern) (c :: s)) _ _ O).
      destruct (length pattern) as [|n]; [lia|].
      cbn [drop]. replace (S n - 1)%nat with n by lia. reflexivity.
    + destruct (indexOf pattern s) as [j|] eqn:Ej; [|discriminate].
      injection Hi as <-. cbn [take app plus drop]. f_equal.
      apply IH. reflexivity.
Qed.

(** X19: a value without a dollar sign is inserted as it is, at the first
    occurrence of the placeholder, and the text after it is treated in the
    same way: occurrences are replaced left to right, without overlap. *)
Theorem plain_value_replaces_placeholder (key value content : jsstring) (i : nat) :
  36 ∉ value ->
  indexOf (placeholder key) content = Some i ->
  replaceAll (placeholder key) value content
  = take i content ++ value
    ++ replaceAll (placeholder key) value (drop (i + length (placeholder key)) content).
Proof.
  intros Hv Hi. apply replace_scan_first; [exact Hv| |exact Hi].
  unfold placeholder. rewrite length_app. simpl. lia.
Qed.

Lemma plain_value_replaces_placeholder_witness :
  replaceAll (placeholder (utf16 "T")) (utf16 "NO_REPLY") (utf16 "say {{T}} or {{T}}")
  = take 4 (utf16 "say {{T}} or {{T}}") ++ utf16 "NO_REPLY"
    ++ replaceAll (placeholder (utf16 "T")) (utf16 "NO_REPLY")
         (drop (4 + length (placeholder (utf16 "T"))) (utf16 "say {{T}} or {{T}}")).
Proof.
  apply plain_value_replaces_placeholder.
  - apply (bool_decide_unpack _). vm_compute. exact I.
  - vm_compute. reflexivity.
Defined.

Lemma replace_scan_matched (pattern whole : jsstring) (s : jsstring) :
  (1 <= length pattern)%nat ->
  forall (skip pos : nat),
    replace_scan pattern (utf16 "$&") whole skip pos s = drop skip s.
Proof.
  intros Hlen. induction s as [|c s IH]; intros skip pos.
  - rewrite drop_nil. destruct skip; reflexivity.
  - destruct skip as [|skip]; cbn [replace_scan drop]; [|apply IH].
    destruct (starts_with pattern (c :: s)) eqn:E.
    + rewrite IH. change (get_substitution pattern _ _ (utf16 "$&"))
        with (pattern ++ []). rewrite app_nil_r.
      transitivity (pattern ++ drop (length pattern) (c :: s));
        [|symmetry; apply starts_with_split, E].
      f_equal. destruct (length pattern) as [|n]; [lia|].
      cbn [drop]. replace (S n - 1)%nat with n by lia. reflexivity.
    + f_equal. apply IH.
Qed.

Lemma replace_scan_same_substitution (pattern t1 t2 whole : jsstring) (s : jsstring) :
  (forall m p f, get_substitution m p f t1 = get_substitution m p f t2) ->
  forall (skip pos : nat),
    replace_scan pattern t1 whole skip pos s = replace_scan pattern t2 whole skip pos s.
Proof.
  intros H. induction s as [|c s IH]; intros skip pos; [reflexivity|].
  cbn [replace_scan]. destruct skip; [|apply IH].
  destruct (starts_with pattern (c :: s)); rewrite IH; [rewrite H|]; reflexivity.
Qed.

(** X20: a value is read as a replacement pattern, not as plain text: the
    value [$&] stands for the matched placeholder, so substituting it
    leaves every text unchanged, and the value [$$] inserts a single dollar
    sign, as the value [$] does. *)
Theorem dollar_values_are_patterns (key content : jsstring) :
  apply_vars [(key, utf16 "$&")] content = content
  /\ apply_vars [(key, utf16 "$$")] content = apply_vars [(key, utf16 "$")] content.
Proof.
  unfold apply_vars, replaceAll. cbn [fold_left fst snd]. split.
  - rewrite replace_scan_matched; [reflexivity|].
    unfold placeholder. rewrite length_app. simpl. lia.
  - apply replace_scan_same_substitution. reflexivity.
Qed.

(* ===================================================================== *)
(** * [agents/prompt-loader.ts]: the tool summaries *)
(* ===================================================================== *)

Lemma trimStart_suffix (s : jsstring) : exists before, s = before ++ trimStart s.
Proof.
  induction s as [|c s [before IH]]; [exists []; reflexivity|].
  cbn [trimStart]. destruct (is_js_whitespace c).
  - exists (c :: before). cbn [app]. f_equal. exact IH.
  - exists []. reflexivity.
Qed.

Lemma trimEnd_prefix (s : jsstring) : exists after, s = trimEnd s ++ after.
Proof.
  unfold trimEnd. destruct (trimStart_suffix (rev s)) as [before H].
  exists (rev before). apply (f_equal (@rev Z)) in H.
  rewrite rev_involutive, rev_app_distr in H. exact H.
Qed.

Lemma trim_infix (s : jsstring) : exists before after, s = before ++ trim s ++ after.
Proof.
  unfold trim. destruct (trimStart_suffix s) as [before H1].
  destruct (trimEnd_prefix (trimStart s)) as [after H2].
  exists before, after. rewrite <- H2. exact H1.
Qed.

Lemma trimStart_fixed (s : jsstring) : trimStart (trimStart s) = trimStart s.
Proof.
  induction s as [|c s IH]; [reflexivity|]. cbn [trimStart].
  destruct (is_js_whitespace c) eqn:E; [exact IH|].
  cbn [trimStart]. rewrite E. reflexivity.
Qed.

Lemma trimStart_snoc (s : jsstring) (c : Z) :
  trimStart (s ++ [c])
  = match trimStart s with
    | [] => if is_js_whitespace c then [] else [c]
    | kept => kept ++ [c]
    end.
Proof.
  induction s as [|a s IH]; [reflexivity|]. cbn [app trimStart].
  destruct (is_js_whitespace a); [exact IH|reflexivity].
Qed.

(** [trimEnd] keeps a first code unit that is not white space. *)
Lemma trimEnd_cons (c : Z) (s : jsstring) :
  is_js_whitespace c = false -> trimEnd (c :: s) = c :: trimEnd s.
Proof.
  intros Hc. unfold trimEnd. cbn [rev]. rewrite trimStart_snoc, Hc.
  destruct (trimStart (rev s)); [reflexivity|].
  rewrite rev_app_distr. reflexivity.
Qed.

Lemma trimEnd_fixed (s : jsstring) : trimEnd (trimEnd s) = trimEnd s.
Proof. unfold trimEnd. rewrite rev_involutive, trimStart_fixed. reflexivity. Qed.

Lemma trimStart_trimEnd (s : jsstring) :
  trimStart s = s -> trimStart (trimEnd s) = trimEnd s.
Proof.
  destruct s as [|c s]; [reflexivity|]. intros H.
  pose proof (trimStart_head _ _ _ H) as Hc.
  rewrite trimEnd_cons by exact Hc. cbn [trimStart]. rewrite Hc. reflexivity.
Qed.

Lemma trim_fixed (s : jsstring) : trim (trim s) = trim s.
Proof.
  unfold trim. rewrite (trimStart_trimEnd (trimStart s)) by apply trimStart_fixed.
  apply trimEnd_fixed.
Qed.

Lemma includes_split (sub s : jsstring) :
  includes sub s = true -> exists before after, s = before ++ sub ++ after.
Proof.
  induction s as [|c s IH]; cbn [includes]; intros H.
  - rewrite orb_false_r in H. exists [], (drop (length sub) []).
    apply (starts_with_split _ _ H).
  - apply orb_true_iff in H as [H|H].
    + exists [], (drop (length sub) (c :: s)). apply (starts_with_split _ _ H).
    + destruct (IH H) as (before & after & ->).
      exists (c :: before), after. reflexivity.
Qed.

Lemma includes_infix (sub before s after : jsstring) :
  includes sub (before ++ s ++ after) = false -> includes sub s = false.
Proof.
  intros H. destruct (includes sub s) eqn:E; [|reflexivity].
  destruct (includes_split _ _ E) as (a & b & ->).
  rewrite <- !app_assoc, (app_assoc before a) in H.
  rewrite includes_app in H. discriminate.
Qed.

Lemma indexOf_first (sub before after : jsstring) :
  exists j, indexOf sub (before ++ sub ++ after) = Some j /\ (j <= length before)%nat.
Proof.
  induction before as [|c before (j & IH & Hj)].
  - exists O. cbn [app]. split; [|simpl; lia].
    pose proof (starts_with_app sub after) as H.
    destruct (sub ++ after); cbn [indexOf]; rewrite H; reflexivity.
  - cbn [app indexOf]. destruct (starts_with sub _).
    + exists O. split; [reflexivity|simpl; lia].
    + rewrite IH. exists (S j). split; [reflexivity|simpl; lia].
Qed.

(** Nothing before the first occurrence contains the text looked for. *)
Lemma includes_before_indexOf (sub s : jsstring) (i : nat) :
  (1 <= length sub)%nat ->
  indexOf sub s = Some i -> includes sub (take i s) = false.
Proof.
  intros Hlen Hi. destruct (includes sub (take i s)) eqn:E; [exfalso|reflexivity].
  destruct (includes_split _ _ E) as (a & b & Hab).
  assert (Hs : s = a ++ sub ++ (b ++ drop i s)).
  { rewrite <- (take_drop i s) at 1. rewrite Hab, <- !app_assoc. reflexivity. }
  destruct (indexOf_first sub a (b ++ drop i s)) as (j & Hj & Hle).
  rewrite <- Hs, Hi in Hj. injection Hj as <-.
  apply (f_equal length) in Hab. rewrite length_take, !length_app in Hab. lia.
Qed.

Lemma split_lines_nonempty (s : jsstring) : split_lines s <> [].
Proof.
  destruct s as [|c s]; [discriminate|]. cbn [split_lines].
  destruct (c =? 10); [discriminate|]. destruct (split_lines s); discriminate.
Qed.

Lemma split_lines_no_newline (s line : jsstring) :
  line ∈ split_lines s -> 10 ∉ line.
Proof.
  revert line. induction s as [|c s IH]; intros line H.
  - apply list_elem_of_singleton in H as ->. apply not_elem_of_nil.
  - cbn [split_lines] in H. destruct (Z.eqb_spec c 10) as [->|Hc].
    + apply elem_of_cons in H as [->|H]; [apply not_elem_of_nil|apply IH, H].
    + destruct (split_lines s) as [|l ls] eqn:E;
        [exfalso; exact (split_lines_nonempty s E)|].
      apply elem_of_cons in H as [->|H].
      * intros [Heq|Hin]%elem_of_cons; [congruence|].
        apply (IH l); [left|exact Hin].
      * apply IH. right. exact H.
Qed.

Lemma not_elem_of_trim (x : Z) (s : jsstring) : x ∉ s -> x ∉ trim s.
Proof.
  intros H Hin. apply H. destruct (trim_infix s) as (before & after & ->).
  rewrite !elem_of_app. auto.
Qed.

Lemma not_elem_of_take (x : Z) (n : nat) (s : jsstring) : x ∉ s -> x ∉ take n s.
Proof.
  intros H Hin. apply H. rewrite <- (take_drop n s), elem_of_app. auto.
Qed.

Lemma not_elem_of_drop (x : Z) (n : nat) (s : jsstring) : x ∉ s -> x ∉ drop n s.
Proof.
  intros H Hin. apply H. rewrite <- (take_drop n s), elem_of_app. auto.
Qed.

Lemma truthy_nonempty (s : jsstring) : truthy s = true -> s <> [].
Proof. destruct s; [discriminate|discriminate]. Qed.

(** One line of the file adds at most one entry, of the expected form. *)
Lemma parse_summary_line_entries (result : gmap jsstring jsstring) (line : jsstring) :
  10 ∉ line ->
  (forall key value, result !! key = Some value -> summary_entry key value) ->
  forall key value,
    parse_summary_line result line !! key = Some value -> summary_entry key value.
Proof.
  intros Hline Hres key value. unfold parse_summary_line. cbv zeta.
  destruct (truthy (trim line)); cbn [negb]; [|apply Hres].
  destruct (indexOf (utf16 ": ") (trim line)) as [i|] eqn:Hi; [|apply Hres].
  destruct (truthy (trim (take i (trim line)))) eqn:Hk; cbn [andb]; [|apply Hres].
  destruct (truthy (trim (drop (i + 2) (trim line)))) eqn:Hv; [|apply Hres].
  unfold set_property. case_bool_decide as Hproto; [apply Hres|].
  destruct (decide (trim (take i (trim line)) = key)) as [<-|Hne].
  - rewrite lookup_insert_eq. intros [= <-].
    repeat split.
    + apply truthy_nonempty, Hk.
    + apply truthy_nonempty, Hv.
    + apply trim_fixed.
    + apply trim_fixed.
    + destruct (trim_infix (take i (trim line))) as (before & after & Ht).
      apply (includes_infix _ before _ after). rewrite <- Ht.
      apply includes_before_indexOf; [simpl; lia|exact Hi].
    + apply not_elem_of_trim, not_elem_of_take, not_elem_of_trim, Hline.
    + apply not_elem_of_trim, not_elem_of_drop, not_elem_of_trim, Hline.
    + exact Hproto.
  - rewrite lookup_insert_ne by exact Hne. apply Hres.
Qed.

Lemma parse_lines_entries (lines : list jsstring) (result : gmap jsstring jsstring) :
  (forall line, line ∈ lines -> 10 ∉ line) ->
  (forall key value, result !! key = Some value -> summary_entry key value) ->
  forall key value,
    fold_left parse_summary_line lines result !! key = Some value ->
    summary_entry key value.
Proof.
  revert result. induction lines as [|line lines IH]; intros result Hlines Hres.
  - exact Hres.
  - cbn [fold_left]. apply IH.
    + intros l Hl. apply Hlines. right. exact Hl.
    + apply parse_summary_line_entries; [apply Hlines; left|exact Hres].
Qed.

(** The file is split at line feeds only: a carriage return inside a line
    does not end it, so what follows it stays in the description. *)
Example carriage_return_stays_in_description :
  parse_tool_summaries (utf16 "read: a" ++ [13] ++ utf16 "exec: b")
  = {[ utf16 "read" := utf16 "a" ++ [13] ++ utf16 "exec: b" ]}.
Proof. vm_compute. reflexivity. Qed.

(** X21: every entry that [loadToolSummaries] reads from the file has a
    non-empty tool name and a non-empty description, both without
    surrounding white space and without a line feed (U+000A; other line
    terminators can remain inside them); the name contains no colon
    followed by a space, and [__proto__] never becomes a name. *)
Theorem tool_summaries_entries (content key value : jsstring) :
  parse_tool_summaries content !! key = Some value ->
  key <> [] /\ value <> []
  /\ trim key = key /\ trim value = value
  /\ includes (utf16 ": ") key = false
  /\ (10 ∉ key) /\ (10 ∉ value)
  /\ key <> utf16 "__proto__".
Proof.
  unfold parse_tool_summaries. intros H.
  apply (parse_lines_entries (split_lines content) ∅); [| |exact H].
  - intros line. apply split_lines_no_newline.
  - intros k v Hkv. rewrite lookup_empty in Hkv. discriminate.
Qed.

Lemma tool_summaries_entries_witness :
  let key := utf16 "read" in
  let value := utf16 "Read file contents" in
  key <> [] /\ value <> []
  /\ trim key = key /\ trim value = value
  /\ includes (utf16 ": ") key = false
  /\ (10 ∉ key) /\ (10 ∉ value)
  /\ key <> utf16 "__proto__".
Proof.
  apply (tool_summaries_entries
           (utf16 "# Tools
read:   Read file contents
exec: Run shell commands")).
  vm_compute. reflexivity.
Defined.

Lemma split_lines_single (line : jsstring) : 10 ∉ line -> split_lines line = [line].
Proof.
  induction line as [|c line IH]; [reflexivity|]. intros H.
  apply not_elem_of_cons in H as [Hc Hline]. cbn [split_lines].
  destruct (Z.eqb_spec c 10) as [->|_]; [congruence|].
  rewrite (IH Hline). reflexivity.
Qed.

Lemma split_lines_app_newline (line rest : jsstring) :
  10 ∉ line -> split_lines (line ++ 10 :: rest) = line :: split_lines rest.
Proof.
  induction line as [|c line IH]; [reflexivity|]. intros H.
  apply not_elem_of_cons in H as [Hc Hline]. cbn [app split_lines].
  destruct (Z.eqb_spec c 10) as [->|_]; [congruence|].
  rewrite (IH Hline). reflexivity.
Qed.

(** Splitting at line feeds undoes joining lines that hold none. *)
Lemma split_lines_join (line : jsstring) (lines : list jsstring) :
  Forall (fun l => 10 ∉ l) (line :: lines) ->
  split_lines (join [10] (line :: lines)) = line :: lines.
Proof.
  revert line. induction lines as [|l lines IH]; intros line H.
  - cbn [join]. apply split_lines_single. inversion H; assumption.
  - inversion H as [|? ? Hline Hrest]; subst.
    change (join [10] (line :: l :: lines)) with (line ++ 10 :: join [10] (l :: lines)).
    rewrite split_lines_app_newline by exact Hline. rewrite (IH l Hrest). reflexivity.
Qed.

Lemma trimStart_length (s : jsstring) : (length (trimStart s) <= length s)%nat.
Proof.
  destruct (trimStart_suffix s) as [before H]. apply (f_equal length) in H.
  rewrite length_app in H. lia.
Qed.

Lemma trimEnd_length (s : jsstring) : (length (trimEnd s) <= length s)%nat.
Proof.
  destruct (trimEnd_prefix s) as [after H]. apply (f_equal length) in H.
  rewrite length_app in H. lia.
Qed.

(** A string that [trim] leaves alone starts with no white space. *)
Lemma trim_fixed_head (c : Z) (s : jsstring) :
  trim (c :: s) = c :: s -> is_js_whitespace c = false.
Proof.
  unfold trim. cbn [trimStart]. destruct (is_js_whitespace c); [|reflexivity].
  intros H. apply (f_equal length) in H. cbn [length] in H.
  pose proof (trimEnd_length (trimStart s)). pose proof (trimStart_length s). lia.
Qed.

Lemma trim_fixed_end (s : jsstring) : trim s = s -> no_trailing_space s.
Proof. unfold trim. intros <-. apply trimEnd_no_trailing_space. Qed.

Lemma no_trailing_space_trimEnd (s : jsstring) : no_trailing_space s -> trimEnd s = s.
Proof.
  intros H. unfold trimEnd. destruct s as [|c s] using rev_ind; [reflexivity|].
  rewrite rev_app_distr. cbn [rev app trimStart].
  rewrite (H s c eq_refl). cbn [rev]. rewrite rev_involutive. reflexivity.
Qed.

Lemma trim_keeps (c : Z) (s : jsstring) :
  is_js_whitespace c = false -> no_trailing_space (c :: s) -> trim (c :: s) = c :: s.
Proof.
  intros Hc Hs. unfold trim. cbn [trimStart]. rewrite Hc.
  apply no_trailing_space_trimEnd, Hs.
Qed.

Lemma no_trailing_space_app (s t : jsstring) :
  t <> [] -> no_trailing_space t -> no_trailing_space (s ++ t).
Proof.
  intros Ht H before c Heq. destruct t as [|d t] using rev_ind; [congruence|].
  rewrite app_assoc in Heq. apply app_inj_tail in Heq as [_ ->].
  exact (H t c eq_refl).
Qed.

(** A documented line is left alone by [trim]. *)
Lemma trim_summary_line (key value : jsstring) :
  summary_entry key value -> trim (summary_line (key, value)) = summary_line (key, value).
Proof.
  intros (Hk & Hv & Htk & Htv & _). unfold summary_line. cbn [fst snd].
  destruct key as [|c key]; [congruence|]. cbn [app]. apply trim_keeps.
  - exact (trim_fixed_head _ _ Htk).
  - rewrite app_assoc, app_comm_cons.
    apply no_trailing_space_app; [exact Hv|apply trim_fixed_end, Htv].
Qed.

(** The first colon followed by a space of a documented line is the
    separator. *)
Lemma indexOf_separator (key rest : jsstring) :
  includes (utf16 ": ") key = false ->
  indexOf (utf16 ": ") (key ++ utf16 ": " ++ rest) = Some (length key).
Proof.
  induction key as [|c key IH]; intros H; [reflexivity|].
  apply includes_cons_false in H as [Hs Hi].
  cbn [app indexOf length]. rewrite (IH Hi).
  replace (starts_with (utf16 ": ") (c :: key ++ utf16 ": " ++ rest)) with false;
    [reflexivity|].
  symmetry. change (utf16 ": ") with [58; 32] in *. cbn [starts_with] in *.
  destruct (58 =? c); [|reflexivity]. cbn [andb] in *.
  destruct key as [|d key]; [reflexivity|]. cbn [app].
  destruct (32 =? d); [discriminate|reflexivity].
Qed.

Lemma parse_summary_line_documented (result : gmap jsstring jsstring)
    (key value : jsstring) :
  summary_entry key value ->
  parse_summary_line result (summary_line (key, value)) = <[key := value]> result.
Proof.
  intros He. pose proof He as (Hk & Hv & Htk & Htv & Hinc & _ & _ & Hproto).
  unfold parse_summary_line. cbv zeta. rewrite (trim_summary_line _ _ He).
  unfold summary_line. cbn [fst snd].
  rewrite indexOf_separator by exact Hinc.
  rewrite take_app_length.
  replace (drop (length key + 2) (key ++ utf16 ": " ++ value)) with value.
  2:{ rewrite drop_app_add'  by reflexivity. reflexivity. }
  rewrite Htk, Htv.
  destruct key as [|c key]; [congruence|]. destruct value as [|d value]; [congruence|].
  cbn [app truthy negb andb]. unfold set_property.
  rewrite bool_decide_eq_false_2 by exact Hproto. reflexivity.
Qed.

Lemma parse_documented_lines (entries : list (jsstring * jsstring))
    (result : gmap jsstring jsstring) :
  Forall (fun entry => summary_entry (fst entry) (snd entry)) entries ->
  fold_left parse_summary_line (List.map summary_line entries) result
  = fold_left (fun result entry => <[fst entry := snd entry]> result) entries result.
Proof.
  revert result. induction entries as [|[key value] entries IH]; intros result H;
    [reflexivity|].
  inversion H as [|? ? He Hrest]; subst. cbn [List.map fold_left fst snd].
  rewrite (parse_summary_line_documented _ _ _ He). apply IH, Hrest.
Qed.

Lemma summary_line_no_newline (key value : jsstring) :
  summary_entry key value -> 10 ∉ summary_line (key, value).
Proof.
  intros (_ & _ & _ & _ & _ & Hk & Hv & _). unfold summary_line. cbn [fst snd].
  rewrite !elem_of_app. intros [H|[H|H]]; [exact (Hk H)| |exact (Hv H)].
  change (utf16 ": ") with [58; 32] in H.
  apply elem_of_cons in H as [H|H]; [discriminate|].
  apply elem_of_cons in H as [H|H]; [discriminate|]. inversion H.
Qed.

(** X22: a file made of lines [toolName: description] is read back by
    [loadToolSummaries] as exactly those entries, a later line replacing an
    earlier one with the same name; the names and descriptions are
    non-empty, without surrounding white space or line feed, and a name
    holds no colon followed by a space and is not [__proto__]. *)
Theorem tool_summaries_of_documented_lines (entries : list (jsstring * jsstring)) :
  Forall (fun entry => summary_entry (fst entry) (snd entry)) entries ->
  parse_tool_summaries (join [10] (List.map summary_line entries))
  = summaries_of entries.
Proof.
  intros H. unfold parse_tool_summaries, summaries_of.
  destruct entries as [|entry entries]; [reflexivity|].
  change (List.map summary_line (entry :: entries))
    with (summary_line entry :: List.map summary_line entries).
  rewrite split_lines_join.
  - change (summary_line entry :: List.map summary_line entries)
      with (List.map summary_line (entry :: entries)).
    apply parse_documented_lines, H.
  - change (summary_line entry :: List.map summary_line entries)
      with (List.map summary_line (entry :: entries)).
    apply Forall_forall. intros l Hl.
    apply list_elem_of_In, in_map_iff in Hl as ([key value] & <- & Hin).
    apply summary_line_no_newline.
    rewrite Forall_forall in H. apply (H (key, value)), list_elem_of_In, Hin.
Qed.

Lemma tool_summaries_of_documented_lines_witness :
  parse_tool_summaries
    (join [10] (List.map summary_line
                  [(utf16 "read", utf16 "Read file contents");
                   (utf16 "exec", utf16 "Run shell commands");
                   (utf16 "read", utf16 "Read a file: text or image")]))
  = summaries_of [(utf16 "read", utf16 "Read file contents");
                  (utf16 "exec", utf16 "Run shell commands");
                  (utf16 "read", utf16 "Read a file: text or image")].
Proof.
  apply tool_summaries_of_documented_lines.
  repeat (constructor;
          [unfold summary_entry; cbn [fst snd];
           repeat split; try discriminate; try reflexivity|]).
  all: apply (bool_decide_unpack _); vm_compute; exact I.
Defined.

(* ===================================================================== *)
(** * [agents/prompt-loader.ts]: clearing the caches *)
(* ===================================================================== *)

Section ClearFacts.

Variable path_join : list jsstring -> jsstring.

(** X23: [clearPromptCache] makes the next load read the disk again,
    whatever was cached before: the prompts directory is resolved anew, and
    when the file is there the load returns its text without trailing white
    space and leaves exactly that one text and that directory cached. *)
Theorem clear_then_load_reads_disk (name dir raw : jsstring)
    (host : PromptLoader.Host) (st : PromptLoader.LoaderState) :
  PromptLoader.resolvePromptsDir path_join host = Ok dir ->
  PromptLoader.readFileSync host (path_join [dir; name ++ utf16 ".md"]) = Ok raw ->
  PromptLoader.loadPrompt path_join name host (PromptLoader.clearPromptCache st)
  = (Ok (trimEnd raw),
     {| PromptLoader.cachedPromptsDir := Some dir;
        PromptLoader.promptCache := {[ name := trimEnd raw ]} |}).
Proof.
  intros Hdir Hread.
  unfold PromptLoader.clearPromptCache, PromptLoader.loadPrompt,
    PromptLoader.getPromptsDir, PromptLoader.initial.
  cbn [PromptLoader.promptCache PromptLoader.cachedPromptsDir].
  rewrite lookup_empty, Hdir, Hread. reflexivity.
Qed.

End ClearFacts.

Lemma clear_then_load_reads_disk_witness :
  PromptLoader.loadPrompt PromptLoader.join_slash (utf16 "silent-replies")
    (PromptLoader.host_with "silent-replies" "new text  ")
    (PromptLoader.clearPromptCache
       {| PromptLoader.cachedPromptsDir := Some (utf16 "/old");
          PromptLoader.promptCache := {[ utf16 "silent-replies" := utf16 "old text" ]} |})
  = (Ok (trimEnd (utf16 "new text  ")),
     {| PromptLoader.cachedPromptsDir := Some (utf16 "/app/src/agents/prompts");
        PromptLoader.promptCache :=
          {[ utf16 "silent-replies" := trimEnd (utf16 "new text  ") ]} |}).
Proof.
  apply clear_then_load_reads_disk.
  - vm_compute. reflexivity.
  - vm_compute. reflexivity.
Defined.
